(** * mov2mp4: a shallow embedding of [mov2mp4.py] and its properties

    The script converts [.mov] files to [.mp4] by spawning [ffmpeg].  The
    embedding follows the script function by function ([which_ffmpeg],
    [build_cmd], [convert_file], [iter_mov_files], [main]) and models the
    parts of the Python library the script relies on ([pathlib.PurePosixPath],
    [Path.mkdir], [Path.glob], [subprocess.run]) over an explicit
    filesystem tree.

    Conventions.
    - A Python [str] is a [string]; the characters that matter to the
      script (the dot, the slash, the letters of [".mp4"] and [".mov"]) are
      ASCII, and no other code point lowercases to one of them, so
      [str.lower] is modelled by ASCII lowercasing.
    - A Python [int] is a [Z].
    - Paths follow the POSIX flavour of [pathlib] (Python 3.10 to 3.12).
    - The model starts after [parser.parse_args()] has returned: a run is
      given by the parsed [Args]. *)

From Stdlib Require Import String Ascii List ZArith Bool Lia Arith.
From Stdlib Require Import DecimalString.
Import ListNotations.

Local Open Scope string_scope.
Local Open Scope list_scope.

(** ** Python strings *)

Module PyStr.

(** [s[i:]] for [0 <= i]. *)
Fixpoint drop (i : nat) (s : string) : string :=
  match i, s with
  | O, _ => s
  | S _, EmptyString => EmptyString
  | S j, String _ r => drop j r
  end.

(** [s[:i]] for [0 <= i]. *)
Fixpoint take (i : nat) (s : string) : string :=
  match i, s with
  | O, _ => EmptyString
  | S _, EmptyString => EmptyString
  | S j, String c r => String c (take j r)
  end.

(** [s.rfind(".")] as an option: the index of the last dot. *)
Fixpoint rfind_dot_opt (s : string) : option nat :=
  match s with
  | EmptyString => None
  | String c r =>
      match rfind_dot_opt r with
      | Some i => Some (S i)
      | None => if Ascii.eqb c "." then Some O else None
      end
  end.

(** [s.rfind(".")]: [-1] when there is no dot. *)
Definition rfind_dot (s : string) : Z :=
  match rfind_dot_opt s with
  | Some i => Z.of_nat i
  | None => (-1)%Z
  end.

Definition lower_char (c : ascii) : ascii :=
  let n := nat_of_ascii c in
  if (65 <=? n)%nat && (n <=? 90)%nat then ascii_of_nat (n + 32) else c.

(** [s.lower()]. *)
Fixpoint lower (s : string) : string :=
  match s with
  | EmptyString => EmptyString
  | String c r => String (lower_char c) (lower r)
  end.

(** [s.endswith(t)]. *)
Definition endswith (s t : string) : bool :=
  (String.length t <=? String.length s)%nat
  && String.eqb (drop (String.length s - String.length t) s) t.

(** [s.split(sep)] for a one-character separator. *)
Fixpoint split (sep : ascii) (s : string) : list string :=
  match s with
  | EmptyString => [EmptyString]
  | String c r =>
      if Ascii.eqb c sep then EmptyString :: split sep r
      else match split sep r with
           | x :: xs => String c x :: xs
           | [] => [String c EmptyString]
           end
  end.

(** [sep.join(xs)]. *)
Fixpoint join (sep : string) (xs : list string) : string :=
  match xs with
  | [] => EmptyString
  | [x] => x
  | x :: rest => (x ++ sep ++ join sep rest)%string
  end.

(** [bool(s)]: a string is truthy when it is not empty. *)
Definition truthy (s : string) : bool :=
  match s with EmptyString => false | _ => true end.

(** [str(n)] for an [int]. *)
Definition of_int (n : Z) : string := NilZero.string_of_int (Z.to_int n).

End PyStr.

(** ** Exceptions *)

(** The exceptions a run can raise. *)
Inductive exn : Type :=
| SystemExit (code : Z)
| ValueError
| FileNotFoundError
| FileExistsError
| NotADirectoryError
| CalledProcessError (returncode : Z).

(** ** [pathlib.PurePosixPath] *)

(** A parsed path: the root ([""], ["/"] or ["//"]) and the components that
    follow it.  [pathlib] keeps [".."] components and drops ["."] and empty
    ones. *)
Record Path : Type := mkPath { root : string; parts : list string }.

Module PurePath.

(** [posixpath.splitroot] without the drive: the root and the rest.
    [if p[:1] != sep: '', p
     elif p[1:2] != sep or p[2:3] == sep: sep, p[1:]
     else: p[:2], p[2:]] *)
Definition splitroot (p : string) : string * string :=
  if negb (String.eqb (PyStr.take 1 p) "/") then ("", p)
  else if negb (String.eqb (PyStr.take 1 (PyStr.drop 1 p)) "/")
          || String.eqb (PyStr.take 1 (PyStr.drop 2 p)) "/"
       then ("/", PyStr.drop 1 p)
       else (PyStr.take 2 p, PyStr.drop 2 p).

(** The components [_parse_path] keeps: [x and x != '.']. *)
Definition keep (x : string) : bool :=
  PyStr.truthy x && negb (String.eqb x ".").

(** [Path(s)]: [_parse_path] splits the root off and the rest at the
    slashes. *)
Definition parse (s : string) : Path :=
  let (rt, rel) := splitroot s in
  mkPath rt (filter keep (PyStr.split "/" rel)).

(** [str(p)]. *)
Definition str (p : Path) : string :=
  match root p, parts p with
  | EmptyString, [] => "."
  | r, ps => (r ++ PyStr.join "/" ps)%string
  end.

(** [p.name]: the last component, or [""] when there is none. *)
Definition name (p : Path) : string := last (parts p) "".

(** [p.parent]: the path without its last component; a path without
    components is its own parent. *)
Definition parent (p : Path) : Path := mkPath (root p) (removelast (parts p)).

(** [p.suffix]:
    [i = name.rfind('.'); name[i:] if 0 < i < len(name) - 1 else ''] *)
Definition suffix (p : Path) : string :=
  let nm := name p in
  let i := PyStr.rfind_dot nm in
  if ((0 <? i) && (i <? Z.of_nat (String.length nm) - 1))%Z
  then PyStr.drop (Z.to_nat i) nm
  else "".

(** [p.stem]: the name without its suffix. *)
Definition stem (p : Path) : string :=
  let nm := name p in
  let i := PyStr.rfind_dot nm in
  if ((0 <? i) && (i <? Z.of_nat (String.length nm) - 1))%Z
  then PyStr.take (Z.to_nat i) nm
  else nm.

(** [p.with_suffix(sfx)] for a suffix that is valid (it starts with a dot,
    is not ["."] and has no separator), which [".mp4"] is: [ValueError]
    when the name is empty, else the name loses its old suffix
    ([name[:-len(old_suffix)]]) and gains the new one. *)
Definition with_suffix (p : Path) (sfx : string) : exn + Path :=
  let nm := name p in
  if negb (PyStr.truthy nm) then inl ValueError
  else
    let old_suffix := suffix p in
    let nm' :=
      if negb (PyStr.truthy old_suffix) then (nm ++ sfx)%string
      else (PyStr.take (String.length nm - String.length old_suffix) nm ++ sfx)%string in
    inr (mkPath (root p) (removelast (parts p) ++ [nm'])).

(** [p / child] for a single component, as [_make_child_relpath] builds
    the paths a directory scan yields. *)
Definition child (p : Path) (nm : string) : Path :=
  mkPath (root p) (parts p ++ [nm]).

End PurePath.

(** ** [build_cmd] *)

Definition build_cmd (ffmpeg : string) (inp out : Path)
           (copy : bool) (crf : Z) (preset : string) (extra : list string)
  : list string :=
  let cmd := [ffmpeg; "-y"; "-i"; PurePath.str inp] in
  let cmd :=
    if copy then cmd ++ ["-c"; "copy"]
    else cmd ++ ["-c:v"; "libx264";
                 "-crf"; PyStr.of_int crf;
                 "-preset"; preset;
                 "-c:a"; "aac";
                 "-b:a"; "192k"] in
  let cmd := cmd ++ ["-c:s"; "copy"] in
  let cmd := cmd ++ ["-movflags"; "+faststart"] in
  let cmd := match extra with [] => cmd | _ => cmd ++ extra end in
  cmd ++ [PurePath.str out].

(** The tokens [build_cmd] emits on its own account: everything before the
    passthrough arguments and the output path. *)
Definition builtin_tokens (ffmpeg : string) (inp : Path)
           (copy : bool) (crf : Z) (preset : string) : list string :=
  [ffmpeg; "-y"; "-i"; PurePath.str inp]
    ++ (if copy then ["-c"; "copy"]
        else ["-c:v"; "libx264"; "-crf"; PyStr.of_int crf;
              "-preset"; preset; "-c:a"; "aac"; "-b:a"; "192k"])
    ++ ["-c:s"; "copy"; "-movflags"; "+faststart"].

(** A directive is an option token immediately followed by its value. *)
Fixpoint count_directive (k v : string) (cmd : list string) : nat :=
  match cmd with
  | a :: (b :: _) as rest =>
      (if String.eqb a k && String.eqb b v then 1 else 0)
      + count_directive k v rest
  | _ => 0
  end.

Definition has_directive (k v : string) (cmd : list string) : bool :=
  (0 <? count_directive k v cmd)%nat.

(** The tokens that follow [ffmpeg -y -i <input>]. *)
Definition options_after_input (cmd : list string) : list string := skipn 4 cmd.

(** ** The filesystem

    A filesystem is a tree of directories and regular files (no symbolic
    links, no permissions).  The entries of a directory are kept in the
    order a scan enumerates them. *)

#[warnings="-register-all"]
Inductive node : Type :=
| File
| Dir (entries : list (string * node)).

Fixpoint find_entry (nm : string) (es : list (string * node)) : option node :=
  match es with
  | [] => None
  | (k, c) :: rest => if String.eqb k nm then Some c else find_entry nm rest
  end.

(** The node at an absolute location (a list of names from the root). *)
Fixpoint lookup (n : node) (loc : list string) : option node :=
  match loc with
  | [] => Some n
  | x :: rest =>
      match n with
      | Dir es =>
          match find_entry x es with
          | Some c => lookup c rest
          | None => None
          end
      | File => None
      end
  end.

Inductive errno : Type := ENOENT | ENOTDIR | EEXIST.

(** Path resolution: from the location [cur], follow the components [ps].
    Each component is looked up in a directory; [".."] goes one level up
    (the root is its own parent). *)
Fixpoint walk (t : node) (cur : list string) (ps : list string)
  : errno + list string :=
  match ps with
  | [] => inr cur
  | p :: rest =>
      match lookup t cur with
      | Some (Dir _) =>
          if String.eqb p ".." then walk t (removelast cur) rest
          else walk t (cur ++ [p]) rest
      | Some File => inl ENOTDIR
      | None => inl ENOENT
      end
  end.

(** The state of the operating system a run can observe and change: the
    entries of the root directory and the working directory of the
    process. *)
Record World : Type := mkWorld { rootdir : list (string * node); cwd : list string }.

Definition tree (w : World) : node := Dir (rootdir w).

Module OS.

(** The location a path resolves to.  A relative path starts at the working
    directory, which must still be a directory. *)
Definition locate (w : World) (rt : string) (ps : list string)
  : errno + list string :=
  if PyStr.truthy rt then walk (tree w) [] ps
  else match lookup (tree w) (cwd w) with
       | Some (Dir _) => walk (tree w) (cwd w) ps
       | _ => inl ENOENT
       end.

(** [os.stat(p)]. *)
Definition stat (w : World) (p : Path) : errno + node :=
  match locate w (root p) (parts p) with
  | inl e => inl e
  | inr loc =>
      match lookup (tree w) loc with
      | Some n => inr n
      | None => inl ENOENT
      end
  end.

(** [p.exists()], [p.is_file()], [p.is_dir()]. *)
Definition exists_ (w : World) (p : Path) : bool :=
  match stat w p with inr _ => true | inl _ => false end.

Definition is_file (w : World) (p : Path) : bool :=
  match stat w p with inr File => true | _ => false end.

Definition is_dir (w : World) (p : Path) : bool :=
  match stat w p with inr (Dir _) => true | _ => false end.

Definition raise_errno (e : errno) : exn :=
  match e with
  | ENOENT => FileNotFoundError
  | ENOTDIR => NotADirectoryError
  | EEXIST => FileExistsError
  end.

Fixpoint update_entry (nm : string) (f : node -> node)
         (es : list (string * node)) : list (string * node) :=
  match es with
  | [] => []
  | (k, c) :: rest =>
      if String.eqb k nm then (k, f c) :: rest
      else (k, c) :: update_entry nm f rest
  end.

(** The tree with a new entry [nm] in the directory at [loc]. *)
Fixpoint add_entry (loc : list string) (nm : string) (new : node) (n : node) : node :=
  match n with
  | File => File
  | Dir es =>
      match loc with
      | [] => Dir (es ++ [(nm, new)])
      | x :: rest => Dir (update_entry x (add_entry rest nm new) es)
      end
  end.

Definition entries_of (n : node) : list (string * node) :=
  match n with Dir es => es | File => [] end.

(** The filesystem after [nm] was added to the directory at [loc]. *)
Definition with_entry (w : World) (loc : list string) (nm : string) (new : node) : World :=
  mkWorld (entries_of (add_entry loc nm new (tree w))) (cwd w).

(** [os.mkdir(p)]: the parent must be an existing directory and the last
    component must not exist yet. *)
Definition mkdir (w : World) (p : Path) : exn + World :=
  match rev (parts p) with
  | [] => inl FileExistsError
  | nm :: rinit =>
      match locate w (root p) (rev rinit) with
      | inl e => inl (raise_errno e)
      | inr loc =>
          match lookup (tree w) loc with
          | None => inl FileNotFoundError
          | Some File => inl NotADirectoryError
          | Some (Dir es) =>
              if String.eqb nm ".." then inl FileExistsError
              else match find_entry nm es with
                   | Some _ => inl FileExistsError
                   | None => inr (with_entry w loc nm (Dir []))
                   end
          end
      end
  end.

(** Writing a regular file at [p]: a new entry when the parent directory
    exists and the name is free, no change of the tree otherwise. *)
Definition write_file (w : World) (p : Path) : World :=
  match rev (parts p) with
  | [] => w
  | nm :: rinit =>
      match locate w (root p) (rev rinit) with
      | inl _ => w
      | inr loc =>
          match lookup (tree w) loc with
          | Some (Dir es) =>
              if String.eqb nm ".." then w
              else match find_entry nm es with
                   | Some _ => w
                   | None => with_entry w loc nm File
                   end
          | _ => w
          end
      end
  end.

(** [fnmatch] against the pattern ["*.mov"] (case-sensitive on POSIX). *)
Definition fnmatch_mov (nm : string) : bool := PyStr.endswith nm ".mov".

(** The names [os.scandir] never lists. *)
Definition dot_name (nm : string) : bool :=
  String.eqb nm "." || String.eqb nm "..".

(** [os.scandir]: the entries of a directory, without ["."] and [".."]. *)
Definition scandir (es : list (string * node)) : list (string * node) :=
  filter (fun e => negb (dot_name (fst e))) es.

(** The matches of ["*.mov"] below a node, relative to it: first the
    matching entries of the directory itself, then those of each
    subdirectory in turn. *)
Fixpoint rglob_node (n : node) : list (list string) :=
  match n with
  | File => []
  | Dir es =>
      map (fun e => [fst e]) (filter (fun e => fnmatch_mov (fst e)) (scandir es))
      ++ flat_map (fun e =>
                     match e with
                     | (nm, c) =>
                         if dot_name nm then []
                         else map (cons nm) (rglob_node c)
                     end) es
  end.

(** Names are pairwise distinct. *)
Fixpoint distinct (l : list string) : bool :=
  match l with
  | [] => true
  | x :: r => negb (existsb (String.eqb x) r) && distinct r
  end.

(** A well-formed tree: no directory lists a name twice. *)
Fixpoint wf_node (n : node) : bool :=
  match n with
  | File => true
  | Dir es =>
      distinct (map fst es)
      && forallb (fun e => match e with (_, c) => wf_node c end) es
  end.

Definition wf (w : World) : bool := wf_node (tree w).

End OS.

(** ** [pathlib.Path] operations that touch the filesystem *)

Module PathOps.

(** [p.mkdir(parents=False, exist_ok=True)]:
    [FileNotFoundError] is re-raised, any other [OSError] is swallowed
    when [p] is a directory.  The result comes with the filesystem the
    call leaves. *)
Definition mkdir_exist_ok (w : World) (p : Path) : (exn + unit) * World :=
  match OS.mkdir w p with
  | inr w' => (inr tt, w')
  | inl FileNotFoundError => (inl FileNotFoundError, w)
  | inl e => if OS.is_dir w p then (inr tt, w) else (inl e, w)
  end.

(** [p.mkdir(parents=True, exist_ok=True)], by recursion on the components
    of [p] taken from the last one: on [FileNotFoundError] the parent is
    created first (unless [p] is its own parent) and [p] is retried.  The
    directories created before an exception stay. *)
Fixpoint mkdir_rev (rt : string) (rps : list string) (w : World)
  : (exn + unit) * World :=
  let p := mkPath rt (rev rps) in
  match OS.mkdir w p with
  | inr w' => (inr tt, w')
  | inl FileNotFoundError =>
      match rps with
      | [] => (inl FileNotFoundError, w)
      | _ :: rps' =>
          match mkdir_rev rt rps' w with
          | (inl e, w') => (inl e, w')
          | (inr _, w') => mkdir_exist_ok w' p
          end
      end
  | inl e => if OS.is_dir w p then (inr tt, w) else (inl e, w)
  end.

Definition mkdir_parents (w : World) (p : Path) : (exn + unit) * World :=
  mkdir_rev (root p) (rev (parts p)) w.

(** [list(p.glob("*.mov"))]: the matching entries of a directory. *)
Definition glob_mov (w : World) (p : Path) : list Path :=
  match OS.stat w p with
  | inr (Dir es) =>
      map (fun e => PurePath.child p (fst e))
          (filter (fun e => OS.fnmatch_mov (fst e)) (OS.scandir es))
  | _ => []
  end.

(** [list(p.rglob("*.mov"))]: the matching entries of the whole subtree. *)
Definition rglob_mov (w : World) (p : Path) : list Path :=
  match OS.stat w p with
  | inr n => map (fun rel => mkPath (root p) (parts p ++ rel)) (OS.rglob_node n)
  | inl _ => []
  end.

End PathOps.

(** ** The program

    A run threads a state through the script: the filesystem and the log of
    the external processes it has spawned, each with the exit status it
    returned.  A computation ends with a value or with a raised exception;
    [sys.exit(n)] raises [SystemExit n].  The messages the script prints are
    not part of the state. *)

Record State : Type := mkState {
  world : World;
  spawned : list (list string * Z)
}.

Definition M (A : Type) : Type := State -> (exn + A) * State.

Definition ret {A} (a : A) : M A := fun st => (inr a, st).

Definition raise {A} (e : exn) : M A := fun st => (inl e, st).

Definition bind {A B} (m : M A) (k : A -> M B) : M B :=
  fun st =>
    match m st with
    | (inr a, st') => k a st'
    | (inl e, st') => (inl e, st')
    end.

Notation "x <- m ;; k" := (bind m (fun x => k))
  (at level 61, m at next level, right associativity).
Notation "m ;; k" := (bind m (fun _ => k))
  (at level 61, right associativity).

(** A library call that returns or raises without touching the state. *)
Definition lift {A} (r : exn + A) : M A :=
  match r with inr a => ret a | inl e => raise e end.

(** A read of the filesystem. *)
Definition query {A} (f : World -> A) : M A := fun st => (inr (f (world st)), st).

(** [sys.exit(code)]. *)
Definition sys_exit {A} (code : Z) : M A := raise (SystemExit code).

(** [try: body  except subprocess.CalledProcessError as e: handler]. *)
Definition try_except_CalledProcessError {A} (body : M A) (handler : Z -> M A) : M A :=
  fun st =>
    match body st with
    | (inl (CalledProcessError rc), st') => handler rc st'
    | r => r
    end.

(** The parsed command line, the [Namespace] of [parser.parse_args()]. *)
Record Args : Type := mkArgs {
  input : string;
  output : option string;
  copy : bool;
  crf : Z;
  preset : string;
  recursive : bool;
  extra : option (list string)
}.

(** The exit status of the process: the code of [sys.exit], 0 when the
    script runs to its end, 1 when an exception is not caught. *)
Definition exit_status (r : exn + unit) : Z :=
  match r with
  | inr _ => 0
  | inl (SystemExit code) => code
  | inl _ => 1
  end.

Section Program.

(** The result of [shutil.which("ffmpeg")], fixed during a run. *)
Variable which : option string.

(** The external encoder: given the command and the filesystem it runs on,
    its exit status and the filesystem it leaves. *)
Variable encoder : list string -> World -> Z * World.

Definition which_ffmpeg : M string :=
  match which with
  | Some exe => if PyStr.truthy exe then ret exe else sys_exit 1
  | None => sys_exit 1
  end.

(** [subprocess.run(cmd, check=True)]: the executable [which_ffmpeg] found
    can be started, so the call either returns or raises
    [CalledProcessError]. *)
Definition subprocess_run (cmd : list string) : M unit :=
  fun st =>
    let (rc, w') := encoder cmd (world st) in
    let st' := mkState w' (spawned st ++ [(cmd, rc)]) in
    if (rc =? 0)%Z then (inr tt, st') else (inl (CalledProcessError rc), st').

(** [out.parent.mkdir(parents=True, exist_ok=True)]. *)
Definition mkdir_parents (p : Path) : M unit :=
  fun st =>
    let (r, w') := PathOps.mkdir_parents (world st) p in
    (r, mkState w' (spawned st)).

(** Lines 67-70 of [convert_file]: the output path of a conversion. *)
Definition resolve_out (inp : Path) (out : option Path) : exn + Path :=
  match out with
  | None => PurePath.with_suffix inp ".mp4"
  | Some o => inr o
  end.

Definition convert_file (inp : Path) (out : option Path)
           (copy : bool) (crf : Z) (preset : string) (extra : list string)
  : M bool :=
  ffmpeg <- which_ffmpeg ;;
  out <- lift (resolve_out inp out) ;;
  mkdir_parents (PurePath.parent out) ;;
  let cmd := build_cmd ffmpeg inp out copy crf preset extra in
  try_except_CalledProcessError
    (subprocess_run cmd ;; ret true)
    (fun _ => ret false).

Definition iter_mov_files (root : Path) (recursive : bool) : M (list Path) :=
  f <- query (fun w => OS.is_file w root) ;;
  if f : bool then ret [root]
  else if recursive then query (fun w => PathOps.rglob_mov w root)
  else query (fun w => PathOps.glob_mov w root).

(** Lines 113-118 of [main]: the explicit output of a single-file run,
    its extension forced to [.mp4]. *)
Definition explicit_out (o : option string) : exn + option Path :=
  match o with
  | Some s =>
      if PyStr.truthy s then
        let out := PurePath.parse s in
        if negb (String.eqb (PyStr.lower (PurePath.suffix out)) ".mp4")
        then match PurePath.with_suffix out ".mp4" with
             | inr out' => inr (Some out')
             | inl e => inl e
             end
        else inr (Some out)
      else inr None
  | None => inr None
  end.

(** [args.extra if args.extra else []]. *)
Definition extra_args (args : Args) : list string :=
  match extra args with
  | Some (x :: l) => x :: l
  | _ => []
  end.

(** Lines 131-134 of [main]: the batch loop and its failure counter. *)
Fixpoint batch (args : Args) (movs : list Path) (failures : Z) : M Z :=
  match movs with
  | [] => ret failures
  | f :: rest =>
      ok <- convert_file f None (copy args) (crf args) (preset args)
                         (extra_args args) ;;
      batch args rest (failures + (if ok : bool then 0 else 1))%Z
  end.

Definition main (args : Args) : M unit :=
  let inp := PurePath.parse (input args) in
  e <- query (fun w => OS.exists_ w inp) ;;
  (if negb e then sys_exit 1 else ret tt) ;;
  f <- query (fun w => OS.is_file w inp) ;;
  (if f : bool then
     out <- lift (explicit_out (output args)) ;;
     ok <- convert_file inp out (copy args) (crf args) (preset args)
                        (extra_args args) ;;
     sys_exit (if ok : bool then 0 else 2)
   else ret tt) ;;
  movs <- iter_mov_files inp (recursive args) ;;
  (match movs with
   | [] => sys_exit 0
   | _ => ret tt
   end) ;;
  failures <- batch args movs 0 ;;
  if negb (failures =? 0)%Z then sys_exit 2 else sys_exit 0.

(** A run from a filesystem, with nothing spawned yet. *)
Definition run (args : Args) (w : World) : (exn + unit) * State :=
  main args (mkState w []).

End Program.

(** ** Notions used by the properties *)

(** The output path a conversion derives from its input: same directory,
    the stem of the name followed by [".mp4"]. *)
Definition derived_out (inp : Path) : Path :=
  PurePath.child (PurePath.parent inp) (PurePath.stem inp ++ ".mp4")%string.




(** The executable [which_ffmpeg] returns, if it returns. *)
Definition found_ffmpeg (which : option string) : option string :=
  match which with
  | Some exe => if PyStr.truthy exe then Some exe else None
  | None => None
  end.

(** The same command line with another [--output]. *)
Definition with_output (o : option string) (args : Args) : Args :=
  mkArgs (input args) o (copy args) (crf args) (preset args) (recursive args)
         (extra args).

(** The list [iter_mov_files] returns on a given filesystem. *)
Definition discovered (w : World) (root : Path) (recursive : bool) : list Path :=
  if OS.is_file w root then [root]
  else if recursive then PathOps.rglob_mov w root
  else PathOps.glob_mov w root.

(** The command of a batch conversion of [f]. *)
Definition batch_cmd (ffmpeg : string) (args : Args) (f : Path) : list string :=
  build_cmd ffmpeg f (derived_out f) (copy args) (crf args) (preset args)
            (extra_args args).


(** The same command line with other values of [--crf] and [--preset]. *)
Definition with_quality (c : Z) (p : string) (args : Args) : Args :=
  mkArgs (input args) (output args) (copy args) c p (recursive args) (extra args).

(** The same command line with another [--recursive]. *)
Definition with_recursive (r : bool) (args : Args) : Args :=
  mkArgs (input args) (output args) (copy args) (crf args) (preset args) r
         (extra args).

(** The same command line with another [--extra]. *)
Definition with_extra (e : option (list string)) (args : Args) : Args :=
  mkArgs (input args) (output args) (copy args) (crf args) (preset args)
         (recursive args) e.



(** Nothing is lost from [w] to [w']: what was a directory or a regular file
    still is. *)
Definition preserved (w w' : World) : Prop :=
  (forall q, OS.is_dir w q = true -> OS.is_dir w' q = true)
  /\ (forall q, OS.is_file w q = true -> OS.is_file w' q = true).

(** ** Example runs *)

(** An encoder for the examples: it exits with 1 when the command names one
    of the [bad] paths, and otherwise writes the output file and exits
    with 0. *)
Definition example_encoder (bad : list string) (cmd : list string) (w : World)
  : Z * World :=
  if existsb (fun tok => existsb (String.eqb tok) bad) cmd then (1%Z, w)
  else (0%Z, OS.write_file w (PurePath.parse (last cmd ""))).

(** A directory with three [.mov] files. *)
Definition clips_world : World :=
  mkWorld [("clips", Dir [("a.mov", File); ("b.mov", File); ("c.mov", File);
                          ("notes.txt", File)])]
          [].

Definition clips_args : Args := mkArgs "/clips" None false 20 "medium" false None.



(** A directory in which a subdirectory has a name that ends in [.mov]. *)
Definition bundle_world : World :=
  mkWorld [("media", Dir [("clips.mov", Dir [("readme.txt", File)]); ("a.mov", File)])]
          [].

(** One file, in the working directory. *)
Definition home_world : World := mkWorld [("home", Dir [("clip.mov", File)])] ["home"].

(** ** Proof automation *)

(** Counting directives in a literal token list: the comparisons between
    literal tokens are evaluated, the others are left. *)
Ltac count_tokens :=
  unfold builtin_tokens; cbn [app count_directive];
  repeat match goal with
         | |- context [String.eqb ?a ?b] =>
             let c := eval vm_compute in (String.eqb a b) in
             match c with
             | true => change (String.eqb a b) with true
             | false => change (String.eqb a b) with false
             end
         end;
  rewrite ?andb_false_r, ?andb_false_l; cbn [andb Nat.add];
  try reflexivity.

(** * Properties *)

(** ** Strings *)

Lemma take_drop (i : nat) (s : string) : (PyStr.take i s ++ PyStr.drop i s)%string = s.
Proof.
  revert s; induction i as [|i IH]; intros [|c r]; simpl; try reflexivity.
  now rewrite IH.
Qed.

Lemma length_drop (i : nat) (s : string) :
  String.length (PyStr.drop i s) = String.length s - i.
Proof.
  revert s; induction i as [|i IH]; intros [|c r]; simpl; auto with arith.
Qed.

Lemma length_append (a b : string) :
  String.length (a ++ b)%string = String.length a + String.length b.
Proof. induction a as [|c a IH]; simpl; [reflexivity | now rewrite IH]. Qed.

Lemma take_length_append (a b : string) : PyStr.take (String.length a) (a ++ b)%string = a.
Proof. induction a as [|c a IH]; simpl; [now destruct b | now rewrite IH]. Qed.

Lemma drop_length_append (a b : string) : PyStr.drop (String.length a) (a ++ b)%string = b.
Proof. induction a as [|c a IH]; simpl; [reflexivity | exact IH]. Qed.

Lemma rfind_dot_opt_append (a b : string) :
  PyStr.rfind_dot_opt (a ++ b)%string =
  match PyStr.rfind_dot_opt b with
  | Some j => Some (String.length a + j)
  | None => PyStr.rfind_dot_opt a
  end.
Proof.
  induction a as [|c a IH]; simpl.
  - now destruct (PyStr.rfind_dot_opt b).
  - rewrite IH. now destruct (PyStr.rfind_dot_opt b).
Qed.

Lemma truthy_length (s : string) : PyStr.truthy s = true <-> 0 < String.length s.
Proof. destruct s; simpl; split; intros; try lia; try discriminate; reflexivity. Qed.

Lemma endswith_truthy (s t : string) :
  PyStr.endswith s t = true -> PyStr.truthy t = true -> PyStr.truthy s = true.
Proof.
  unfold PyStr.endswith. intros H Ht.
  apply andb_prop in H as [H _]. apply Nat.leb_le in H.
  apply truthy_length in Ht. apply truthy_length. lia.
Qed.

(** ** Pure paths *)

Lemma name_snoc (r : string) (l : list string) (x : string) :
  PurePath.name (mkPath r (l ++ [x])) = x.
Proof. unfold PurePath.name; simpl. apply last_last. Qed.

Lemma parent_snoc (r : string) (l : list string) (x : string) :
  PurePath.parent (mkPath r (l ++ [x])) = mkPath r l.
Proof. unfold PurePath.parent; simpl. now rewrite removelast_last. Qed.

Lemma name_stem_suffix (p : Path) :
  PurePath.name p = (PurePath.stem p ++ PurePath.suffix p)%string.
Proof.
  unfold PurePath.stem, PurePath.suffix.
  destruct (_ && _)%bool; [now rewrite take_drop | ].
  generalize (PurePath.name p). induction s; simpl; congruence.
Qed.

Lemma stem_truthy (p : Path) :
  PyStr.truthy (PurePath.name p) = true -> PyStr.truthy (PurePath.stem p) = true.
Proof.
  unfold PurePath.stem. intros H.
  destruct (_ && _)%bool eqn:E; [|exact H].
  apply andb_prop in E as [E1 E2].
  apply Z.ltb_lt in E1. apply Z.ltb_lt in E2.
  destruct (PurePath.name p) as [|c r]; [discriminate|].
  destruct (Z.to_nat (PyStr.rfind_dot (String c r))) eqn:En; [lia | reflexivity].
Qed.

(** The name [with_suffix] computes is the stem followed by the new
    suffix. *)
Lemma with_suffix_stem (p : Path) (sfx : string) :
  PyStr.truthy (PurePath.name p) = true ->
  PurePath.with_suffix p sfx =
  inr (PurePath.child (PurePath.parent p) (PurePath.stem p ++ sfx)%string).
Proof.
  intros H. unfold PurePath.with_suffix. rewrite H. simpl.
  unfold PurePath.child, PurePath.parent; simpl. do 3 f_equal.
  unfold PurePath.suffix, PurePath.stem.
  destruct (_ && _)%bool eqn:E; simpl; [|reflexivity].
  apply andb_prop in E as [E1 E2].
  apply Z.ltb_lt in E1. apply Z.ltb_lt in E2.
  set (nm := PurePath.name p) in *.
  set (i := PyStr.rfind_dot nm) in *.
  assert (L : String.length (PyStr.drop (Z.to_nat i) nm) = String.length nm - Z.to_nat i)
    by apply length_drop.
  assert (T : PyStr.truthy (PyStr.drop (Z.to_nat i) nm) = true)
    by (apply truthy_length; lia).
  rewrite T; simpl. rewrite L. do 3 f_equal. lia.
Qed.

Lemma rfind_dot_stem_mp4 (a : string) :
  PyStr.rfind_dot (a ++ ".mp4")%string = Z.of_nat (String.length a).
Proof.
  unfold PyStr.rfind_dot. rewrite rfind_dot_opt_append. simpl.
  now rewrite Nat.add_0_r.
Qed.

Lemma suffix_of_mp4_name (r : string) (l : list string) (a : string) :
  PyStr.truthy a = true ->
  PurePath.suffix (mkPath r (l ++ [(a ++ ".mp4")%string])) = ".mp4"
  /\ PurePath.stem (mkPath r (l ++ [(a ++ ".mp4")%string])) = a.
Proof.
  intros H. apply truthy_length in H.
  unfold PurePath.suffix, PurePath.stem. rewrite name_snoc.
  rewrite rfind_dot_stem_mp4, length_append. simpl String.length.
  replace ((0 <? Z.of_nat (String.length a))%Z) with true
    by (symmetry; apply Z.ltb_lt; lia).
  replace ((Z.of_nat (String.length a) <? Z.of_nat (String.length a + 4) - 1)%Z) with true
    by (symmetry; apply Z.ltb_lt; lia).
  simpl. rewrite Nat2Z.id.
  split; [apply drop_length_append | apply take_length_append].
Qed.

(** ** The command builder *)

(** [build_cmd] is the built-in tokens, then the passthrough arguments, then
    the output path. *)
Lemma build_cmd_shape (ffmpeg : string) (inp out : Path) (copy : bool) (crf : Z)
      (preset : string) (extra : list string) :
  build_cmd ffmpeg inp out copy crf preset extra =
  builtin_tokens ffmpeg inp copy crf preset ++ extra ++ [PurePath.str out].
Proof.
  unfold build_cmd, builtin_tokens.
  destruct extra as [|x l], copy; simpl; reflexivity.
Qed.

Lemma builtin_tokens_end (ffmpeg : string) (inp : Path) (copy : bool) (crf : Z)
      (preset : string) :
  exists front, builtin_tokens ffmpeg inp copy crf preset = front ++ ["+faststart"].
Proof.
  unfold builtin_tokens. destruct copy.
  - exists [ffmpeg; "-y"; "-i"; PurePath.str inp; "-c"; "copy"; "-c:s"; "copy"; "-movflags"].
    reflexivity.
  - exists [ffmpeg; "-y"; "-i"; PurePath.str inp; "-c:v"; "libx264"; "-crf"; PyStr.of_int crf;
            "-preset"; preset; "-c:a"; "aac"; "-b:a"; "192k"; "-c:s"; "copy"; "-movflags"].
    reflexivity.
Qed.

(** Directives are counted separately on both sides of a token that is not
    the option looked for. *)
Lemma count_directive_split (k v x : string) (l r : list string) :
  String.eqb x k = false ->
  count_directive k v ((l ++ [x]) ++ r) =
  count_directive k v (l ++ [x]) + count_directive k v r.
Proof.
  intros Hx. induction l as [|a l IH].
  - simpl. rewrite Hx. simpl. destruct r; reflexivity.
  - destruct l as [|b l].
    + simpl in *. rewrite Hx. simpl. destruct r; simpl; lia.
    + change (((a :: b :: l) ++ [x]) ++ r) with (a :: ((b :: l) ++ [x]) ++ r).
      change ((a :: b :: l) ++ [x]) with (a :: (b :: l) ++ [x]).
      simpl in *. rewrite IH. lia.
Qed.

Lemma count_directive_build_cmd (k v : string) (ffmpeg : string) (inp out : Path)
      (copy : bool) (crf : Z) (preset : string) (extra : list string) :
  String.eqb "+faststart" k = false ->
  count_directive k v (build_cmd ffmpeg inp out copy crf preset extra) =
  count_directive k v (builtin_tokens ffmpeg inp copy crf preset)
  + count_directive k v (extra ++ [PurePath.str out]).
Proof.
  intros Hk. rewrite build_cmd_shape.
  destruct (builtin_tokens_end ffmpeg inp copy crf preset) as [front ->].
  now apply count_directive_split.
Qed.

Lemma builtin_subtitle_copy_once (ffmpeg : string) (inp : Path) (copy : bool)
      (crf : Z) (preset : string) :
  count_directive "-c:s" "copy" (builtin_tokens ffmpeg inp copy crf preset) = 1.
Proof. destruct copy; count_tokens. Qed.

Lemma builtin_faststart_once (ffmpeg : string) (inp : Path) (copy : bool)
      (crf : Z) (preset : string) :
  count_directive "-movflags" "+faststart" (builtin_tokens ffmpeg inp copy crf preset) = 1.
Proof. destruct copy; count_tokens. Qed.

Lemma builtin_stream_copy (ffmpeg : string) (inp : Path) (copy : bool)
      (crf : Z) (preset : string) :
  count_directive "-c" "copy" (builtin_tokens ffmpeg inp copy crf preset) =
  if copy then 1 else 0.
Proof. destruct copy; count_tokens. Qed.

Lemma builtin_video_codec (ffmpeg : string) (inp : Path) (copy : bool)
      (crf : Z) (preset : string) :
  count_directive "-c:v" "libx264" (builtin_tokens ffmpeg inp copy crf preset) =
  if copy then 0 else 1.
Proof. destruct copy; count_tokens. Qed.

(** ** The filesystem *)

Lemma node_induction (P : node -> Prop) :
  P File ->
  (forall es, Forall (fun e => P (snd e)) es -> P (Dir es)) ->
  forall n, P n.
Proof.
  intros HF HD.
  fix IH 1. intros [|es]; [exact HF|].
  apply HD. induction es as [|[k c] es IHes]; constructor; [apply IH | exact IHes].
Qed.

Lemma lookup_app (n : node) (a b : list string) :
  lookup n (a ++ b) =
  match lookup n a with
  | Some m => lookup m b
  | None => None
  end.
Proof.
  revert n; induction a as [|x a IH]; intros n; simpl; [reflexivity|].
  destruct n as [|es]; [reflexivity|].
  destruct (find_entry x es); [apply IH | reflexivity].
Qed.

Lemma walk_app (t : node) (cur ps qs : list string) :
  walk t cur (ps ++ qs) =
  match walk t cur ps with
  | inr c => walk t c qs
  | inl e => inl e
  end.
Proof.
  revert cur; induction ps as [|p ps IH]; intros cur; simpl; [reflexivity|].
  destruct (lookup t cur) as [[|es]|]; try reflexivity.
  destruct (String.eqb p ".."); apply IH.
Qed.

Lemma locate_app (w : World) (rt : string) (ps qs : list string) :
  OS.locate w rt (ps ++ qs) =
  match OS.locate w rt ps with
  | inr c => walk (tree w) c qs
  | inl e => inl e
  end.
Proof.
  unfold OS.locate. destruct (PyStr.truthy rt); [apply walk_app|].
  destruct (lookup (tree w) (cwd w)) as [[|es]|]; try reflexivity.
  apply walk_app.
Qed.


Lemma stat_parts_snoc (w : World) (rt : string) (init : list string) (nm : string) (n : node) :
  OS.stat w (mkPath rt (init ++ [nm])) = inr n ->
  exists loc es,
    OS.locate w rt init = inr loc /\ lookup (tree w) loc = Some (Dir es)
    /\ (String.eqb nm ".." = false -> find_entry nm es = Some n).
Proof.
  unfold OS.stat; simpl. rewrite locate_app.
  destruct (OS.locate w rt init) as [e|loc]; [discriminate|].
  simpl. destruct (lookup (tree w) loc) as [[|es]|] eqn:E; try discriminate.
  intros H. exists loc, es. repeat split; [exact E|].
  intros Hn. rewrite Hn in H. rewrite lookup_app, E in H. simpl in H.
  destruct (find_entry nm es); [|discriminate].
  destruct (lookup (tree w) (loc ++ [nm])); congruence.
Qed.




(** *** Creating a directory *)

Lemma find_entry_app (nm : string) (es es' : list (string * node)) :
  find_entry nm (es ++ es') =
  match find_entry nm es with
  | Some c => Some c
  | None => find_entry nm es'
  end.
Proof.
  induction es as [|[k c] es IH]; simpl; [reflexivity|].
  destruct (String.eqb k nm); [reflexivity | exact IH].
Qed.

Lemma find_entry_update (x y : string) (f : node -> node) (es : list (string * node)) :
  find_entry x (OS.update_entry y f es) =
  if String.eqb y x then option_map f (find_entry x es) else find_entry x es.
Proof.
  induction es as [|[k c] es IH]; simpl; [now destruct (String.eqb y x)|].
  destruct (String.eqb k y) eqn:Eky; simpl.
  - apply String.eqb_eq in Eky; subst k.
    destruct (String.eqb y x); reflexivity.
  - destruct (String.eqb k x) eqn:Ekx.
    + apply String.eqb_eq in Ekx; subst k. rewrite String.eqb_sym, Eky. reflexivity.
    + exact IH.
Qed.

(** A directory stays a directory when an entry is added somewhere. *)
Lemma lookup_add_entry_mono (nm : string) (new : node) (l : list string) :
  forall (t : node) (loc : list string) (es : list (string * node)),
    lookup t l = Some (Dir es) ->
    exists es', lookup (OS.add_entry loc nm new t) l = Some (Dir es').
Proof.
  induction l as [|x l IH]; intros t loc es H; simpl in *.
  - injection H as ->. destruct loc; simpl; eauto.
  - destruct t as [|es0]; [discriminate|].
    destruct (find_entry x es0) as [c|] eqn:E; [|discriminate].
    destruct loc as [|y loc]; simpl.
    + rewrite find_entry_app, E. eauto.
    + rewrite find_entry_update, E. simpl.
      destruct (String.eqb y x); eauto.
Qed.

Lemma walk_add_entry_mono (loc : list string) (nm : string) (new t : node)
      (ps : list string) :
  forall cur l, walk t cur ps = inr l -> walk (OS.add_entry loc nm new t) cur ps = inr l.
Proof.
  induction ps as [|p ps IH]; intros cur l H; simpl in *; [exact H|].
  destruct (lookup t cur) as [[|es]|] eqn:E; try discriminate.
  destruct (lookup_add_entry_mono nm new cur t loc es E) as [es' ->].
  destruct (String.eqb p ".."); now apply IH.
Qed.


Lemma tree_with_entry (w : World) (loc : list string) (nm : string) (new : node) :
  tree (OS.with_entry w loc nm new) = OS.add_entry loc nm new (tree w).
Proof. unfold OS.with_entry, tree; simpl. destruct loc; reflexivity. Qed.

Lemma locate_with_entry_mono (w : World) (loc : list string) (nm : string) (new : node)
      (rt : string) (ps l : list string) :
  OS.locate w rt ps = inr l -> OS.locate (OS.with_entry w loc nm new) rt ps = inr l.
Proof.
  unfold OS.locate. rewrite tree_with_entry.
  change (cwd (OS.with_entry w loc nm new)) with (cwd w).
  destruct (PyStr.truthy rt); [apply walk_add_entry_mono|].
  destruct (lookup (tree w) (cwd w)) as [[|es]|] eqn:E; try discriminate.
  destruct (lookup_add_entry_mono nm new (cwd w) (tree w) loc es E) as [es' ->].
  apply walk_add_entry_mono.
Qed.

Lemma is_dir_with_entry_mono (w : World) (loc : list string) (nm : string) (new : node)
      (p : Path) :
  OS.is_dir w p = true -> OS.is_dir (OS.with_entry w loc nm new) p = true.
Proof.
  unfold OS.is_dir, OS.stat.
  destruct (OS.locate w (root p) (parts p)) as [e|l] eqn:L; [discriminate|].
  rewrite (locate_with_entry_mono w loc nm new _ _ _ L), tree_with_entry.
  destruct (lookup (tree w) l) as [[|es]|] eqn:K; try discriminate. intros _.
  now destruct (lookup_add_entry_mono nm new l (tree w) loc es K) as [es' ->].
Qed.




(** *** Scanning directories *)

Lemma dot_name_dotdot (nm : string) :
  OS.dot_name nm = false -> String.eqb nm ".." = false.
Proof. unfold OS.dot_name. intros H. now apply orb_false_elim in H. Qed.

Lemma fnmatch_mov_truthy (nm : string) : OS.fnmatch_mov nm = true -> PyStr.truthy nm = true.
Proof. intros H. now apply endswith_truthy with ".mov". Qed.

Lemma fnmatch_mov_not_dot (nm : string) : OS.fnmatch_mov nm = true -> OS.dot_name nm = false.
Proof.
  unfold OS.fnmatch_mov, OS.dot_name. intros H.
  destruct (String.eqb nm ".") eqn:E1.
  - apply String.eqb_eq in E1; subst. discriminate.
  - destruct (String.eqb nm "..") eqn:E2; [|reflexivity].
    apply String.eqb_eq in E2; subst. discriminate.
Qed.

Lemma find_entry_distinct (es : list (string * node)) (nm : string) (c : node) :
  OS.distinct (map fst es) = true -> In (nm, c) es -> find_entry nm es = Some c.
Proof.
  induction es as [|[k d] es IH]; simpl; intros Hd Hin; [contradiction|].
  apply andb_prop in Hd as [Hk Hd].
  destruct Hin as [[= -> ->]|Hin]; [now rewrite String.eqb_refl|].
  destruct (String.eqb k nm) eqn:E; [|now apply IH].
  apply String.eqb_eq in E; subst k. exfalso.
  apply negb_true_iff in Hk.
  assert (existsb (String.eqb nm) (map fst es) = true); [|congruence].
  apply existsb_exists. exists nm. split; [|apply String.eqb_refl].
  apply in_map_iff. now exists (nm, c).
Qed.

Lemma find_entry_In (es : list (string * node)) (nm : string) (c : node) :
  find_entry nm es = Some c -> In (nm, c) es.
Proof.
  induction es as [|[k d] es IH]; simpl; [discriminate|].
  destruct (String.eqb k nm) eqn:E.
  - apply String.eqb_eq in E; subst k. intros [= ->]. now left.
  - intros H. right. now apply IH.
Qed.

(** What [glob("*.mov")] returns: the entries of the directory, of either
    kind, whose name ends in [".mov"]. *)
Lemma glob_mov_spec (w : World) (p f : Path) :
  In f (PathOps.glob_mov w p) <->
  exists es nm c,
    OS.stat w p = inr (Dir es) /\ In (nm, c) es
    /\ OS.fnmatch_mov nm = true /\ f = PurePath.child p nm.
Proof.
  unfold PathOps.glob_mov. split.
  - destruct (OS.stat w p) as [e|[|es]]; try contradiction.
    intros H. apply in_map_iff in H as ([nm c] & <- & H).
    apply filter_In in H as [H Hm]. apply filter_In in H as [H _].
    exists es, nm, c. auto.
  - intros (es & nm & c & -> & Hin & Hm & ->).
    apply in_map_iff. exists (nm, c). split; [reflexivity|].
    apply filter_In. split; [|exact Hm].
    apply filter_In. split; [exact Hin|]. simpl.
    now rewrite (fnmatch_mov_not_dot _ Hm).
Qed.

(** What [rglob("*.mov")] finds below a node: the entries, of either kind,
    whose name ends in [".mov"], in the directory itself and in every
    directory reached through listed subdirectories. *)
Lemma rglob_node_sound (n : node) :
  forall rel, In rel (OS.rglob_node n) ->
  exists dirs nm c es,
    rel = dirs ++ [nm]
    /\ OS.fnmatch_mov nm = true
    /\ Forall (fun d => OS.dot_name d = false) dirs
    /\ (OS.wf_node n = true -> lookup n dirs = Some (Dir es) /\ In (nm, c) es).
Proof.
  induction n as [|es IH] using node_induction; intros rel H; [contradiction|].
  simpl in H. apply in_app_or in H as [H|H].
  - apply in_map_iff in H as ([nm c] & <- & H).
    apply filter_In in H as [H Hm]. apply filter_In in H as [H _].
    exists [], nm, c, es. simpl. auto.
  - apply in_flat_map in H as ([nm c] & Hin & H).
    destruct (OS.dot_name nm) eqn:Edot; [contradiction|].
    apply in_map_iff in H as (rel' & <- & H).
    rewrite Forall_forall in IH. specialize (IH _ Hin _ H).
    destruct IH as (dirs & nm' & c' & es' & -> & Hm & Hd & Hl).
    exists (nm :: dirs), nm', c', es'.
    split; [reflexivity|]. split; [exact Hm|]. split; [now constructor|].
    intros Hwf. simpl in Hwf. apply andb_prop in Hwf as [Hdist Hall].
    rewrite forallb_forall in Hall.
    simpl. rewrite (find_entry_distinct _ _ _ Hdist Hin).
    apply Hl. apply (Hall _ Hin).
Qed.

Lemma rglob_node_complete (dirs : list string) :
  forall (n : node) (es : list (string * node)) (nm : string) (c : node),
    lookup n dirs = Some (Dir es) ->
    Forall (fun d => OS.dot_name d = false) dirs ->
    In (nm, c) es -> OS.fnmatch_mov nm = true ->
    In (dirs ++ [nm]) (OS.rglob_node n).
Proof.
  induction dirs as [|d dirs IH]; intros n es nm c Hl Hd Hin Hm; simpl in Hl.
  - injection Hl as ->. simpl. apply in_or_app. left.
    apply in_map_iff. exists (nm, c). split; [reflexivity|].
    apply filter_In. split; [|exact Hm].
    apply filter_In. split; [exact Hin|]. simpl.
    now rewrite (fnmatch_mov_not_dot _ Hm).
  - destruct n as [|es0]; [discriminate|].
    destruct (find_entry d es0) as [c0|] eqn:E; [|discriminate].
    inversion Hd as [|? ? Hd1 Hd2]; subst.
    simpl. apply in_or_app. right.
    apply in_flat_map. exists (d, c0). split; [now apply find_entry_In|].
    rewrite Hd1. apply in_map. now apply IH with es c.
Qed.

Lemma is_dir_stat (w : World) (p : Path) :
  OS.is_dir w p = true <-> exists es, OS.stat w p = inr (Dir es).
Proof.
  unfold OS.is_dir. destruct (OS.stat w p) as [e|[|es]]; split;
    try discriminate; eauto; intros [es' H]; discriminate.
Qed.

(** Every path [glob] returns has a non-empty name and lies in an existing
    directory. *)
Lemma glob_mov_parent (w : World) (p f : Path) :
  In f (PathOps.glob_mov w p) ->
  PyStr.truthy (PurePath.name f) = true /\ OS.is_dir w (PurePath.parent f) = true.
Proof.
  intros H. apply glob_mov_spec in H as (es & nm & c & Hs & _ & Hm & ->).
  unfold PurePath.child. rewrite name_snoc, parent_snoc. split.
  - now apply fnmatch_mov_truthy.
  - apply is_dir_stat. exists es. now destruct p.
Qed.

Lemma rglob_mov_name (w : World) (p f : Path) :
  In f (PathOps.rglob_mov w p) -> PyStr.truthy (PurePath.name f) = true.
Proof.
  unfold PathOps.rglob_mov. destruct (OS.stat w p) as [e|n]; [contradiction|].
  intros H. apply in_map_iff in H as (rel & <- & H).
  apply rglob_node_sound in H as (dirs & nm & c & es & -> & Hm & _).
  rewrite app_assoc, name_snoc. now apply fnmatch_mov_truthy.
Qed.


(** *** Names of existing files *)



(** A path without components is the root or the working directory, never
    a regular file. *)
Lemma is_file_parts (w : World) (p : Path) : OS.is_file w p = true -> parts p <> [].
Proof.
  unfold OS.is_file, OS.stat, OS.locate. intros H E. rewrite E in H.
  destruct (PyStr.truthy (root p)); simpl in H; [discriminate|].
  destruct (lookup (tree w) (cwd w)) as [[|es]|] eqn:K; simpl in H;
    try discriminate.
  rewrite K in H. discriminate.
Qed.


(** ** The program *)

Section ProgramFacts.

Variable which : option string.
Variable encoder : list string -> World -> Z * World.

Lemma which_ffmpeg_found (ffmpeg : string) (st : State) :
  found_ffmpeg which = Some ffmpeg -> which_ffmpeg which st = (inr ffmpeg, st).
Proof.
  unfold found_ffmpeg, which_ffmpeg. destruct which as [exe|]; [|discriminate].
  destruct (PyStr.truthy exe); [|discriminate]. now intros [= ->].
Qed.

Lemma which_ffmpeg_missing (st : State) :
  found_ffmpeg which = None -> which_ffmpeg which st = (inl (SystemExit 1), st).
Proof.
  unfold found_ffmpeg, which_ffmpeg. destruct which as [exe|]; [|reflexivity].
  destruct (PyStr.truthy exe); [discriminate | reflexivity].
Qed.

(** Without [ffmpeg], a conversion exits with status 1 before anything
    else. *)
Lemma convert_file_missing (inp : Path) (out : option Path) (copy : bool) (crf : Z)
      (preset : string) (extra : list string) (st : State) :
  found_ffmpeg which = None ->
  convert_file which encoder inp out copy crf preset extra st = (inl (SystemExit 1), st).
Proof.
  intros H. unfold convert_file, bind. now rewrite (which_ffmpeg_missing st H).
Qed.

(** The output path cannot be computed: the exception leaves the state as
    it is. *)
Lemma convert_file_no_out (inp : Path) (out : option Path) (copy : bool) (crf : Z)
      (preset : string) (extra : list string) (st : State) (ffmpeg : string) (e : exn) :
  found_ffmpeg which = Some ffmpeg ->
  resolve_out inp out = inl e ->
  convert_file which encoder inp out copy crf preset extra st = (inl e, st).
Proof.
  intros H R. unfold convert_file, bind.
  now rewrite (which_ffmpeg_found _ st H), R.
Qed.

(** The output directory cannot be created: the exception leaves the
    directories created so far. *)
Lemma convert_file_no_dir (inp : Path) (out : option Path) (copy : bool) (crf : Z)
      (preset : string) (extra : list string) (st : State) (ffmpeg : string)
      (o : Path) (e : exn) (w1 : World) :
  found_ffmpeg which = Some ffmpeg ->
  resolve_out inp out = inr o ->
  PathOps.mkdir_parents (world st) (PurePath.parent o) = (inl e, w1) ->
  convert_file which encoder inp out copy crf preset extra st
  = (inl e, mkState w1 (spawned st)).
Proof.
  intros H R D. unfold convert_file, bind.
  rewrite (which_ffmpeg_found _ st H), R. simpl.
  unfold mkdir_parents. now rewrite D.
Qed.

(** Otherwise the encoder runs on the filesystem that has the output
    directory, and the conversion returns whether it exited with 0. *)
Lemma convert_file_run (inp : Path) (out : option Path) (copy : bool) (crf : Z)
      (preset : string) (extra : list string) (st : State) (ffmpeg : string)
      (o : Path) (w1 : World) :
  found_ffmpeg which = Some ffmpeg ->
  resolve_out inp out = inr o ->
  PathOps.mkdir_parents (world st) (PurePath.parent o) = (inr tt, w1) ->
  let cmd := build_cmd ffmpeg inp o copy crf preset extra in
  convert_file which encoder inp out copy crf preset extra st =
  (inr (fst (encoder cmd w1) =? 0)%Z,
   mkState (snd (encoder cmd w1)) (spawned st ++ [(cmd, fst (encoder cmd w1))])).
Proof.
  intros H R D cmd. unfold convert_file, bind.
  rewrite (which_ffmpeg_found _ st H), R. simpl.
  unfold mkdir_parents. rewrite D.
  unfold try_except_CalledProcessError, bind, subprocess_run. simpl.
  fold cmd. destruct (encoder cmd w1) as [rc w2]. simpl.
  destruct (rc =? 0)%Z; reflexivity.
Qed.

(** A conversion spawns at most one process, the command [build_cmd]
    gives for the resolved output. *)
Lemma convert_file_log (inp : Path) (out : option Path) (copy : bool) (crf : Z)
      (preset : string) (extra : list string) (st st' : State) (r : exn + bool) (o : Path) :
  resolve_out inp out = inr o ->
  convert_file which encoder inp out copy crf preset extra st = (r, st') ->
  spawned st' = spawned st
  \/ exists ffmpeg rc,
      spawned st' = spawned st ++ [(build_cmd ffmpeg inp o copy crf preset extra, rc)].
Proof.
  intros R H.
  destruct (found_ffmpeg which) as [ffmpeg|] eqn:F.
  - destruct (PathOps.mkdir_parents (world st) (PurePath.parent o)) as [[e|[]] w1] eqn:D.
    + rewrite (convert_file_no_dir _ _ _ _ _ _ _ _ _ _ _ F R D) in H. injection H as _ <-. now left.
    + rewrite (convert_file_run _ _ _ _ _ _ _ _ _ _ F R D) in H. injection H as _ <-.
      right. simpl. eauto.
  - rewrite convert_file_missing in H by exact F. injection H as _ <-. now left.
Qed.

Lemma resolve_out_derived (f : Path) :
  PyStr.truthy (PurePath.name f) = true -> resolve_out f None = inr (derived_out f).
Proof. intros H. unfold resolve_out, derived_out. now apply with_suffix_stem. Qed.

Lemma parent_derived_out (f : Path) : PurePath.parent (derived_out f) = PurePath.parent f.
Proof. unfold derived_out, PurePath.child. now rewrite parent_snoc. Qed.

Lemma iter_mov_files_discovered (root : Path) (recursive : bool) (st : State) :
  iter_mov_files root recursive st = (inr (discovered (world st) root recursive), st).
Proof.
  unfold iter_mov_files, discovered, bind, query.
  destruct (OS.is_file (world st) root); [reflexivity|].
  destruct recursive; reflexivity.
Qed.

Lemma batch_with_output (o : option string) (args : Args) (movs : list Path) :
  forall failures st,
    batch which encoder (with_output o args) movs failures st
    = batch which encoder args movs failures st.
Proof.
  induction movs as [|f movs IH]; intros failures st; simpl; [reflexivity|].
  unfold bind. change (extra_args (with_output o args)) with (extra_args args).
  destruct (convert_file _ _ _ _ _ _ _ _ st) as [[e|ok] st1]; [reflexivity | apply IH].
Qed.



(** Whatever the encoder does, every process the batch loop spawns is the
    conversion of a discovered file to its derived output. *)
Lemma batch_log (args : Args) (movs : list Path) :
  Forall (fun f => PyStr.truthy (PurePath.name f) = true) movs ->
  forall failures st r st',
    batch which encoder args movs failures st = (r, st') ->
    exists log,
      spawned st' = spawned st ++ log
      /\ Forall (fun e => exists ffmpeg f, In f movs /\ fst e = batch_cmd ffmpeg args f) log.
Proof.
  induction movs as [|f movs IH]; intros Hm failures st r st' H.
  - injection H as _ <-. exists []. now rewrite app_nil_r.
  - inversion Hm as [|? ? Hn Hm']; subst.
    cbn [batch] in H. unfold bind in H.
    destruct (convert_file _ _ _ _ _ _ _ _ st) as [[e|ok] st1] eqn:C.
    + injection H as _ <-.
      destruct (convert_file_log _ _ _ _ _ _ _ _ _ _ (resolve_out_derived _ Hn) C)
        as [->|(ffmpeg & rc & ->)].
      * exists []. now rewrite app_nil_r.
      * eexists; split; [reflexivity|]. constructor; [|constructor].
        exists ffmpeg, f. split; [now left | reflexivity].
    + destruct (IH Hm' _ _ _ _ H) as (log & -> & Hl).
      assert (Hl' : Forall (fun e => exists ffmpeg g, In g (f :: movs)
                                     /\ fst e = batch_cmd ffmpeg args g) log).
      { eapply Forall_impl; [|exact Hl]. intros e (ffmpeg & g & Hg & E).
        exists ffmpeg, g. split; [now right | exact E]. }
      destruct (convert_file_log _ _ _ _ _ _ _ _ _ _ (resolve_out_derived _ Hn) C)
        as [->|(ffmpeg & rc & ->)].
      * now exists log.
      * exists ((batch_cmd ffmpeg args f, rc) :: log). rewrite <- app_assoc. split; [reflexivity|].
        constructor; [|exact Hl']. exists ffmpeg, f. split; [now left | reflexivity].
Qed.

Lemma is_file_exists (w : World) (p : Path) : OS.is_file w p = true -> OS.exists_ w p = true.
Proof. unfold OS.is_file, OS.exists_. now destruct (OS.stat w p). Qed.

Lemma is_dir_exists (w : World) (p : Path) :
  OS.is_dir w p = true <-> OS.exists_ w p = true /\ OS.is_file w p = false.
Proof.
  unfold OS.is_dir, OS.is_file, OS.exists_.
  destruct (OS.stat w p) as [e|[|es]]; intuition discriminate.
Qed.

(** The three ways through [main]. *)
Lemma main_missing_input (args : Args) (st : State) :
  OS.exists_ (world st) (PurePath.parse (input args)) = false ->
  main which encoder args st = (inl (SystemExit 1), st).
Proof. intros H. unfold main, bind, query. now rewrite H. Qed.

Lemma main_single (args : Args) (st : State) :
  OS.is_file (world st) (PurePath.parse (input args)) = true ->
  main which encoder args st =
  match explicit_out (output args) with
  | inl e => (inl e, st)
  | inr out =>
      match convert_file which encoder (PurePath.parse (input args)) out
                         (copy args) (crf args) (preset args) (extra_args args) st with
      | (inr ok, st') => (inl (SystemExit (if ok : bool then 0 else 2)), st')
      | (inl e, st') => (inl e, st')
      end
  end.
Proof.
  intros H. unfold main, bind, query.
  rewrite (is_file_exists _ _ H). simpl. rewrite H. simpl.
  destruct (explicit_out (output args)) as [e|out]; [reflexivity|]. simpl.
  destruct (convert_file _ _ _ _ _ _ _ _ st) as [[e|ok] st1]; reflexivity.
Qed.

Lemma main_batch (args : Args) (st : State) :
  OS.is_dir (world st) (PurePath.parse (input args)) = true ->
  main which encoder args st =
  match discovered (world st) (PurePath.parse (input args)) (recursive args) with
  | [] => (inl (SystemExit 0), st)
  | movs =>
      match batch which encoder args movs 0 st with
      | (inr failures, st') =>
          (inl (SystemExit (if negb (failures =? 0)%Z then 2 else 0)), st')
      | (inl e, st') => (inl e, st')
      end
  end.
Proof.
  intros H. apply is_dir_exists in H as [He Hf].
  unfold main. generalize (batch which encoder args). intros b.
  unfold bind, query. rewrite He. simpl. rewrite Hf. simpl.
  rewrite iter_mov_files_discovered. simpl.
  destruct (discovered _ _ _) as [|f movs]; [reflexivity|]. simpl.
  destruct (b (f :: movs) 0%Z st) as [[e|n] st1]; [reflexivity|].
  destruct (negb (n =? 0)%Z); reflexivity.
Qed.

(** Every discovered path of a directory has a non-empty name; in a
    well-formed tree it lies in an existing directory. *)
Lemma discovered_names (w : World) (p : Path) (recursive : bool) :
  OS.is_dir w p = true ->
  Forall (fun f => PyStr.truthy (PurePath.name f) = true) (discovered w p recursive).
Proof.
  intros Hd. apply is_dir_exists in Hd as [_ Hf].
  unfold discovered. rewrite Hf. apply Forall_forall. intros f Hin.
  destruct recursive; [now apply rglob_mov_name with w p | now apply glob_mov_parent with w p].
Qed.


End ProgramFacts.

(** ** Runs *)








(** When the root is a file, discovery returns exactly the root, whatever
    its extension. *)
Lemma iter_mov_files_file (root : Path) (recursive : bool) (st : State) :
  OS.is_file (world st) root = true ->
  iter_mov_files root recursive st = (inr [root], st).
Proof.
  intros H. rewrite iter_mov_files_discovered. unfold discovered. now rewrite H.
Qed.

(** * The claims *)

(** ** C1: exit statuses *)




(** ** C2: codec directives *)

(** C2, as stated, fails: with the stream-copy flag unset, passthrough
    arguments that carry ["-c" "copy"] put the stream-copy directive into
    the command. *)
Lemma C2_passthrough_adds_stream_copy :
  has_directive "-c" "copy"
    (build_cmd "ffmpeg" (PurePath.parse "clip.mov") (PurePath.parse "clip.mp4")
               false 20 "medium" ["-c"; "copy"]) = true.
Proof. reflexivity. Qed.

(** C2 (amended): the built-in part of the command (the tokens before the
    passthrough arguments and the output path) contains, with the
    stream-copy flag unset, exactly one ["-c:v" "libx264"] directive together
    with the quality and preset directives and no ["-c" "copy"] directive;
    with the flag set, exactly one ["-c" "copy"] directive, no
    ["-c:v" "libx264"] directive and, after the input path, none of the
    tokens ["-c:v"], ["-crf"], ["-preset"].  The whole command adds to these
    the directives found among the passthrough arguments and the output
    path. *)
Theorem C2_codec_directives (ffmpeg : string) (inp out : Path) (copy : bool) (crf : Z)
        (preset : string) (extra : list string) :
  let cmd := build_cmd ffmpeg inp out copy crf preset extra in
  let builtin := builtin_tokens ffmpeg inp copy crf preset in
  let rest := extra ++ [PurePath.str out] in
  cmd = builtin ++ rest
  /\ (forall k v, String.eqb "+faststart" k = false ->
        count_directive k v cmd = count_directive k v builtin + count_directive k v rest)
  /\ (copy = false ->
        count_directive "-c:v" "libx264" builtin = 1
        /\ has_directive "-crf" (PyStr.of_int crf) builtin = true
        /\ has_directive "-preset" preset builtin = true
        /\ count_directive "-c" "copy" builtin = 0)
  /\ (copy = true ->
        count_directive "-c" "copy" builtin = 1
        /\ count_directive "-c:v" "libx264" builtin = 0
        /\ forall k, In k ["-c:v"; "-crf"; "-preset"] ->
                     ~ In k (options_after_input builtin)).
Proof.
  intros cmd builtin rest. split; [apply build_cmd_shape|].
  split; [intros k v Hk; now apply count_directive_build_cmd|].
  split; intros ->.
  - split; [apply (builtin_video_codec ffmpeg inp false crf preset)|].
    split; [|split; [|apply (builtin_stream_copy ffmpeg inp false crf preset)]].
    + unfold has_directive, builtin, builtin_tokens. cbn [app count_directive].
      rewrite (String.eqb_refl (PyStr.of_int crf)). simpl. apply Nat.ltb_lt. lia.
    + unfold has_directive, builtin, builtin_tokens. cbn [app count_directive].
      rewrite (String.eqb_refl preset). simpl.
      apply Nat.ltb_lt. lia.
  - split; [apply (builtin_stream_copy ffmpeg inp true crf preset)|].
    split; [apply (builtin_video_codec ffmpeg inp true crf preset)|].
    intros k Hk Hin. simpl in Hk, Hin.
    destruct Hk as [<-|[<-|[<-|[]]]];
      repeat (destruct Hin as [Hin|Hin]; [discriminate|]); exact Hin.
Qed.

Lemma C2_codec_directives_witness :
  let cmd := build_cmd "ffmpeg" (PurePath.parse "clip.mov") (PurePath.parse "clip.mp4")
                       false 20 "medium" [] in
  count_directive "-c:v" "libx264" cmd = 1 /\ count_directive "-c" "copy" cmd = 0.
Proof.
  intros cmd.
  destruct (C2_codec_directives "ffmpeg" (PurePath.parse "clip.mov")
              (PurePath.parse "clip.mp4") false 20 "medium" [])
    as (_ & Hsum & Hre & _).
  destruct (Hre eq_refl) as (Hv & _ & _ & Hc).
  split.
  - unfold cmd. rewrite (Hsum "-c:v" "libx264" eq_refl), Hv. reflexivity.
  - unfold cmd. rewrite (Hsum "-c" "copy" eq_refl), Hc. reflexivity.
Defined.

(** ** C3: subtitle copy, faststart, overwrite *)

(** C3, as stated, fails: passthrough arguments that repeat ["-c:s" "copy"]
    give a command with two subtitle-copy directives. *)
Lemma C3_passthrough_repeats_subtitle_copy :
  count_directive "-c:s" "copy"
    (build_cmd "ffmpeg" (PurePath.parse "clip.mov") (PurePath.parse "clip.mp4")
               false 20 "medium" ["-c:s"; "copy"]) = 2.
Proof. reflexivity. Qed.

(** C3 (amended): regardless of the stream-copy flag, the built-in part of
    the command contains exactly one ["-c:s" "copy"] directive and exactly
    one ["-movflags" "+faststart"] directive; the whole command contains one
    of each plus those found among the passthrough arguments and the output
    path, and always contains the token ["-y"]. *)
Theorem C3_subtitle_faststart_overwrite (ffmpeg : string) (inp out : Path) (copy : bool)
        (crf : Z) (preset : string) (extra : list string) :
  let cmd := build_cmd ffmpeg inp out copy crf preset extra in
  let builtin := builtin_tokens ffmpeg inp copy crf preset in
  let rest := extra ++ [PurePath.str out] in
  count_directive "-c:s" "copy" builtin = 1
  /\ count_directive "-movflags" "+faststart" builtin = 1
  /\ count_directive "-c:s" "copy" cmd = 1 + count_directive "-c:s" "copy" rest
  /\ count_directive "-movflags" "+faststart" cmd
     = 1 + count_directive "-movflags" "+faststart" rest
  /\ In "-y" cmd.
Proof.
  intros cmd builtin rest.
  assert (Hs := builtin_subtitle_copy_once ffmpeg inp copy crf preset).
  assert (Hf := builtin_faststart_once ffmpeg inp copy crf preset).
  split; [exact Hs|]. split; [exact Hf|].
  unfold cmd. rewrite !count_directive_build_cmd by reflexivity.
  rewrite Hs, Hf. split; [reflexivity|]. split; [reflexivity|].
  rewrite build_cmd_shape. apply in_or_app. left.
  unfold builtin_tokens. simpl. auto.
Qed.

(** ** C4: passthrough arguments and output path *)

(** C4: the command is the built-in tokens, which depend neither on the
    passthrough arguments nor on the output path, followed by the
    passthrough arguments verbatim, followed by the output path as the last
    token. *)
Theorem C4_passthrough_then_output (ffmpeg : string) (inp out : Path) (copy : bool)
        (crf : Z) (preset : string) (extra : list string) :
  build_cmd ffmpeg inp out copy crf preset extra
  = builtin_tokens ffmpeg inp copy crf preset ++ extra ++ [PurePath.str out]
  /\ last (build_cmd ffmpeg inp out copy crf preset extra) "" = PurePath.str out.
Proof.
  split; [apply build_cmd_shape|].
  rewrite build_cmd_shape, !app_assoc. apply last_last.
Qed.

(** ** C5: the derived output path *)

(** C5: a conversion without explicit output, of an input that has a file
    name, writes to the path [derived_out] gives: the directory of the
    input, and the name of the input with its extension replaced by [".mp4"]
    (appended when the name has none).  Every process such a conversion
    spawns is built for that output path. *)
Theorem C5_derived_output (inp : Path) :
  PyStr.truthy (PurePath.name inp) = true ->
  resolve_out inp None = inr (derived_out inp)
  /\ PurePath.parent (derived_out inp) = PurePath.parent inp
  /\ PurePath.name inp = (PurePath.stem inp ++ PurePath.suffix inp)%string
  /\ PurePath.name (derived_out inp) = (PurePath.stem inp ++ ".mp4")%string
  /\ PurePath.suffix (derived_out inp) = ".mp4"
  /\ PurePath.stem (derived_out inp) = PurePath.stem inp
  /\ forall which encoder copy crf preset extra st r st',
       convert_file which encoder inp None copy crf preset extra st = (r, st') ->
       spawned st' = spawned st
       \/ exists ffmpeg rc,
           spawned st' = spawned st
                         ++ [(build_cmd ffmpeg inp (derived_out inp) copy crf preset extra, rc)].
Proof.
  intros H.
  split; [now apply resolve_out_derived|].
  split; [apply parent_derived_out|].
  split; [apply name_stem_suffix|].
  split; [unfold derived_out, PurePath.child; apply name_snoc|].
  destruct (suffix_of_mp4_name (root (PurePath.parent inp)) (parts (PurePath.parent inp))
              _ (stem_truthy _ H)) as [Hs Ht].
  split; [exact Hs|]. split; [exact Ht|].
  intros which encoder copy crf preset extra st r st' C.
  eapply convert_file_log; [|exact C]. now apply resolve_out_derived.
Qed.

Lemma C5_derived_output_witness :
  resolve_out (PurePath.parse "videos/clip.mov") None
  = inr (mkPath "" ["videos"; "clip.mp4"]).
Proof.
  exact (proj1 (C5_derived_output (PurePath.parse "videos/clip.mov") eq_refl)).
Defined.

(** ** C6: the explicit output path *)




(** ** C7: input discovery *)

(** C7 on a directory that holds a subdirectory whose name ends in [.mov]:
    discovery returns that subdirectory, which is not a file, next to the
    matching file. *)
Theorem C7_discovery_returns_directory :
  fst (iter_mov_files (PurePath.parse "/media") false (mkState bundle_world []))
  = inr [mkPath "/" ["media"; "clips.mov"]; mkPath "/" ["media"; "a.mov"]]
  /\ OS.is_file bundle_world (mkPath "/" ["media"; "clips.mov"]) = false
  /\ OS.is_dir bundle_world (mkPath "/" ["media"; "clips.mov"]) = true
  /\ map fst (spawned (snd (run (Some "/usr/bin/ffmpeg") (example_encoder [])
                                (mkArgs "/media" None false 20 "medium" false None)
                                bundle_world)))
     = [batch_cmd "/usr/bin/ffmpeg" (mkArgs "/media" None false 20 "medium" false None)
                  (mkPath "/" ["media"; "clips.mov"]);
        batch_cmd "/usr/bin/ffmpeg" (mkArgs "/media" None false 20 "medium" false None)
                  (mkPath "/" ["media"; "a.mov"])].
Proof. repeat split. Qed.

(** ** C8: a failure does not abort the batch *)



(** ** C9: batch mode ignores [--output] *)

(** C9: when the input is not a file, the run does not depend on
    [--output]; every process it spawns converts a discovered entry to the
    output path derived from that entry. *)
Theorem C9_batch_ignores_output (which : option string)
        (encoder : list string -> World -> Z * World) (args : Args)
        (o : option string) (st : State) :
  OS.is_file (world st) (PurePath.parse (input args)) = false ->
  main which encoder (with_output o args) st = main which encoder args st
  /\ exists log,
       spawned (snd (main which encoder args st)) = spawned st ++ log
       /\ Forall (fun e => exists ffmpeg f,
                      In f (discovered (world st) (PurePath.parse (input args))
                                       (recursive args))
                      /\ fst e = batch_cmd ffmpeg args f) log.
Proof.
  intros Fi.
  destruct (OS.exists_ (world st) (PurePath.parse (input args))) eqn:Ex.
  - assert (Hd : OS.is_dir (world st) (PurePath.parse (input args)) = true)
      by (now apply is_dir_exists).
    split.
    + rewrite (main_batch which encoder (with_output o args) st Hd).
      rewrite (main_batch which encoder args st Hd).
      change (input (with_output o args)) with (input args).
      change (recursive (with_output o args)) with (recursive args).
      destruct (discovered _ _ _) as [|f movs]; [reflexivity|].
      now rewrite batch_with_output.
    + rewrite (main_batch which encoder args st Hd).
      assert (Hn := discovered_names (world st) _ (recursive args) Hd).
      destruct (discovered _ _ _) as [|f movs] eqn:E.
      * exists []. now rewrite app_nil_r.
      * destruct (batch which encoder args (f :: movs) 0 st) as [res st'] eqn:B.
        destruct (batch_log which encoder args (f :: movs) Hn 0 st res st' B)
          as (log & Hl & Hf).
        exists log. split; [|exact Hf].
        now destruct res.
  - split.
    + rewrite !main_missing_input; auto.
    + rewrite main_missing_input by exact Ex. exists []. now rewrite app_nil_r.
Qed.

Lemma C9_batch_ignores_output_witness :
  main (Some "/usr/bin/ffmpeg") (example_encoder [])
       (with_output (Some "elsewhere/result.mp4") clips_args) (mkState clips_world [])
  = main (Some "/usr/bin/ffmpeg") (example_encoder []) clips_args (mkState clips_world []).
Proof.
  exact (proj1 (C9_batch_ignores_output (Some "/usr/bin/ffmpeg") (example_encoder [])
                  clips_args (Some "elsewhere/result.mp4") (mkState clips_world [])
                  eq_refl)).
Defined.

(** ** C10: directories created before a failed conversion stay *)



(** * Further properties *)

(** ** Output paths *)

Lemma with_suffix_inr (p out : Path) (sfx : string) :
  PurePath.with_suffix p sfx = inr out -> PyStr.truthy (PurePath.name p) = true.
Proof.
  unfold PurePath.with_suffix.
  destruct (PyStr.truthy (PurePath.name p)); [reflexivity | discriminate].
Qed.

Lemma suffix_truthy_name (p : Path) :
  PyStr.truthy (PurePath.suffix p) = true -> PyStr.truthy (PurePath.name p) = true.
Proof.
  unfold PurePath.suffix.
  destruct (PurePath.name p) as [|c r]; [|reflexivity].
  simpl. discriminate.
Qed.

Lemma child_parent_name (p : Path) :
  PyStr.truthy (PurePath.name p) = true ->
  PurePath.child (PurePath.parent p) (PurePath.name p) = p.
Proof.
  destruct p as [rt ps]. unfold PurePath.child, PurePath.parent, PurePath.name.
  cbn [root parts]. intros H. f_equal.
  destruct ps as [|x l]; [discriminate|].
  symmetry. apply app_removelast_last. discriminate.
Qed.

Lemma suffix_derived_out (p : Path) :
  PyStr.truthy (PurePath.name p) = true -> PurePath.suffix (derived_out p) = ".mp4".
Proof.
  intros H. unfold derived_out, PurePath.child.
  apply (suffix_of_mp4_name (root (PurePath.parent p)) (parts (PurePath.parent p))
           _ (stem_truthy _ H)).
Qed.

(** X1: an input whose extension already is [".mp4"] derives itself as
    output, and deriving is idempotent: the output derived from a derived
    output is that same path. *)
Theorem X1_mp4_input_derives_itself (inp : Path) :
  (PurePath.suffix inp = ".mp4" -> resolve_out inp None = inr inp)
  /\ (PyStr.truthy (PurePath.name inp) = true ->
      resolve_out (derived_out inp) None = inr (derived_out inp)).
Proof.
  assert (A : forall p, PurePath.suffix p = ".mp4" -> resolve_out p None = inr p).
  { intros p H.
    assert (Hn : PyStr.truthy (PurePath.name p) = true)
      by (apply suffix_truthy_name; now rewrite H).
    rewrite (resolve_out_derived _ Hn). unfold derived_out.
    rewrite <- H, <- name_stem_suffix. now rewrite child_parent_name. }
  split; [apply A|].
  intros H. apply A. now apply suffix_derived_out.
Qed.

Lemma X1_mp4_input_derives_itself_witness :
  resolve_out (PurePath.parse "videos/clip.mp4") None = inr (PurePath.parse "videos/clip.mp4")
  /\ resolve_out (derived_out (PurePath.parse "videos/clip.mov")) None
     = inr (PurePath.parse "videos/clip.mp4").
Proof.
  split.
  - exact (proj1 (X1_mp4_input_derives_itself (PurePath.parse "videos/clip.mp4")) eq_refl).
  - exact (proj2 (X1_mp4_input_derives_itself (PurePath.parse "videos/clip.mov")) eq_refl).
Defined.

Lemma rfind_dot_none (s : string) :
  PyStr.rfind_dot s = (-1)%Z -> PyStr.rfind_dot_opt s = None.
Proof.
  unfold PyStr.rfind_dot. destruct (PyStr.rfind_dot_opt s); [lia | reflexivity].
Qed.

(** X2: only the last extension is replaced.  For a name [a.ext] with [a]
    and [ext] non-empty and no dot in [ext], the suffix is [.ext], the stem
    is [a], and the derived output is [a.mp4] in the same directory. *)
Theorem X2_last_extension_replaced (inp : Path) (a ext : string) :
  PurePath.name inp = (a ++ "." ++ ext)%string ->
  PyStr.truthy a = true ->
  PyStr.truthy ext = true ->
  PyStr.rfind_dot ext = (-1)%Z ->
  PurePath.suffix inp = ("." ++ ext)%string
  /\ PurePath.stem inp = a
  /\ resolve_out inp None = inr (PurePath.child (PurePath.parent inp) (a ++ ".mp4")%string).
Proof.
  intros Hn Ha He Hd.
  apply truthy_length in Ha. apply truthy_length in He.
  assert (R : PyStr.rfind_dot (PurePath.name inp) = Z.of_nat (String.length a)).
  { rewrite Hn. unfold PyStr.rfind_dot. rewrite rfind_dot_opt_append.
    change ("." ++ ext)%string with (String "." ext). cbn [PyStr.rfind_dot_opt].
    rewrite (rfind_dot_none _ Hd). simpl. now rewrite Nat.add_0_r. }
  assert (L : String.length (PurePath.name inp) = String.length a + S (String.length ext)).
  { rewrite Hn, length_append. reflexivity. }
  assert (S1 : PurePath.suffix inp = ("." ++ ext)%string).
  { unfold PurePath.suffix. rewrite R, L.
    replace ((0 <? Z.of_nat (String.length a))%Z) with true
      by (symmetry; apply Z.ltb_lt; lia).
    replace ((Z.of_nat (String.length a)
              <? Z.of_nat (String.length a + S (String.length ext)) - 1)%Z) with true
      by (symmetry; apply Z.ltb_lt; lia).
    simpl. rewrite Nat2Z.id, Hn. apply drop_length_append. }
  assert (S2 : PurePath.stem inp = a).
  { unfold PurePath.stem. rewrite R, L.
    replace ((0 <? Z.of_nat (String.length a))%Z) with true
      by (symmetry; apply Z.ltb_lt; lia).
    replace ((Z.of_nat (String.length a)
              <? Z.of_nat (String.length a + S (String.length ext)) - 1)%Z) with true
      by (symmetry; apply Z.ltb_lt; lia).
    simpl. rewrite Nat2Z.id, Hn. apply take_length_append. }
  split; [exact S1|]. split; [exact S2|].
  rewrite resolve_out_derived.
  - unfold derived_out. now rewrite S2.
  - rewrite Hn. apply truthy_length. rewrite length_append. lia.
Qed.

Lemma X2_last_extension_replaced_witness :
  resolve_out (PurePath.parse "shots/take.final.mov") None
  = inr (mkPath "" ["shots"; "take.final.mp4"]).
Proof.
  exact (proj2 (proj2 (X2_last_extension_replaced (PurePath.parse "shots/take.final.mov")
                         "take.final" "mov" eq_refl eq_refl eq_refl eq_refl))).
Defined.

(** The explicit output of a single-file run, when there is one, has the
    extension [".mp4"] up to letter case. *)
Lemma explicit_out_suffix (o : option string) (out : Path) :
  explicit_out o = inr (Some out) -> PyStr.lower (PurePath.suffix out) = ".mp4".
Proof.
  unfold explicit_out. destruct o as [s|]; [|discriminate].
  destruct (PyStr.truthy s); [|discriminate].
  destruct (String.eqb (PyStr.lower (PurePath.suffix (PurePath.parse s))) ".mp4") eqn:E; simpl.
  - intros [= <-]. now apply String.eqb_eq.
  - destruct (PurePath.with_suffix (PurePath.parse s) ".mp4") as [e|out'] eqn:W; [discriminate|].
    intros [= <-].
    assert (Hn := with_suffix_inr _ _ _ W).
    rewrite (with_suffix_stem _ ".mp4" Hn) in W. injection W as <-.
    fold (derived_out (PurePath.parse s)). now rewrite suffix_derived_out.
Qed.

(** ** Exceptions and exit statuses *)







Section ExitFacts.

Variable which : option string.
Variable encoder : list string -> World -> Z * World.



End ExitFacts.


(** X4: a run that has nothing to convert or cannot convert does nothing:
    when the input path does not exist, or is a directory without matching
    entries, or [ffmpeg] is not on the search path, no process is spawned and
    the filesystem is left as it was. *)
Theorem X4_nothing_done (which : option string)
        (encoder : list string -> World -> Z * World) (args : Args) (w : World) :
  let inp := PurePath.parse (input args) in
  OS.exists_ w inp = false
  \/ (OS.is_dir w inp = true /\ discovered w inp (recursive args) = [])
  \/ found_ffmpeg which = None ->
  snd (run which encoder args w) = mkState w [].
Proof.
  intros inp H. unfold run.
  destruct (OS.exists_ w inp) eqn:Ex.
  2:{ now rewrite main_missing_input. }
  destruct H as [H|[[Hd Hm]|F]]; [discriminate| |].
  - rewrite main_batch by exact Hd. cbn [world]. fold inp. now rewrite Hm.
  - destruct (OS.is_file w inp) eqn:Fi.
    + rewrite main_single by exact Fi.
      destruct (explicit_out (output args)) as [e|out]; [reflexivity|].
      now rewrite convert_file_missing.
    + assert (Hd : OS.is_dir w inp = true) by (now apply is_dir_exists).
      rewrite main_batch by exact Hd. cbn [world]. fold inp.
      destruct (discovered w inp (recursive args)) as [|f movs]; [reflexivity|].
      cbn [batch]. unfold bind. now rewrite convert_file_missing.
Qed.

Lemma X4_nothing_done_witness :
  snd (run None (example_encoder []) clips_args clips_world) = mkState clips_world []
  /\ snd (run (Some "/usr/bin/ffmpeg") (example_encoder [])
              (mkArgs "/nowhere" None false 20 "medium" false None) clips_world)
     = mkState clips_world [].
Proof.
  split.
  - apply (X4_nothing_done None (example_encoder []) clips_args clips_world).
    right. right. reflexivity.
  - apply (X4_nothing_done (Some "/usr/bin/ffmpeg") (example_encoder [])
             (mkArgs "/nowhere" None false 20 "medium" false None) clips_world).
    left. reflexivity.
Defined.

(** ** What is spawned *)

Section SpawnFacts.

Variable which : option string.
Variable encoder : list string -> World -> Z * World.

(** A conversion logs nothing, or the command built for its resolved
    output. *)
Lemma convert_file_spawn (inp : Path) (out : option Path) (copy : bool) (crf : Z)
      (preset : string) (extra : list string) (st : State) :
  let st' := snd (convert_file which encoder inp out copy crf preset extra st) in
  spawned st' = spawned st
  \/ exists ffmpeg rc o,
      resolve_out inp out = inr o
      /\ spawned st' = spawned st ++ [(build_cmd ffmpeg inp o copy crf preset extra, rc)].
Proof.
  intros st'. subst st'.
  destruct (found_ffmpeg which) as [ffmpeg|] eqn:F.
  2:{ left. now rewrite convert_file_missing. }
  destruct (resolve_out inp out) as [e|o] eqn:R.
  { left. now rewrite (convert_file_no_out which encoder _ _ _ _ _ _ _ ffmpeg e F R). }
  destruct (PathOps.mkdir_parents (world st) (PurePath.parent o)) as [[e|[]] w1] eqn:D.
  { left. now rewrite (convert_file_no_dir which encoder _ _ _ _ _ _ st ffmpeg o e w1 F R D). }
  right. rewrite (convert_file_run which encoder _ _ _ _ _ _ st ffmpeg o w1 F R D).
  simpl. eauto.
Qed.

End SpawnFacts.

Lemma last_build_cmd (ffmpeg : string) (inp out : Path) (copy : bool) (crf : Z)
      (preset : string) (extra : list string) :
  last (build_cmd ffmpeg inp out copy crf preset extra) "" = PurePath.str out.
Proof. rewrite build_cmd_shape, !app_assoc. apply last_last. Qed.

(** X5: in every run, in either mode, every process spawned is the command
    [build_cmd] gives for the options of the command line and an output path
    whose extension is [".mp4"] up to letter case; that output path is the
    last token. *)
Theorem X5_outputs_are_mp4 (which : option string)
        (encoder : list string -> World -> Z * World) (args : Args) (w : World) :
  Forall (fun e =>
            exists ffmpeg inp out,
              fst e = build_cmd ffmpeg inp out (copy args) (crf args) (preset args)
                                (extra_args args)
              /\ PyStr.lower (PurePath.suffix out) = ".mp4"
              /\ last (fst e) "" = PurePath.str out)
         (spawned (snd (run which encoder args w))).
Proof.
  unfold run.
  destruct (OS.exists_ w (PurePath.parse (input args))) eqn:Ex.
  2:{ rewrite main_missing_input by exact Ex. constructor. }
  destruct (OS.is_file w (PurePath.parse (input args))) eqn:Fi.
  - rewrite main_single by exact Fi.
    destruct (explicit_out (output args)) as [e|out] eqn:E; [constructor|].
    destruct (convert_file_spawn which encoder (PurePath.parse (input args)) out
                (copy args) (crf args) (preset args) (extra_args args) (mkState w []))
      as [S|(ffmpeg & rc & o & R & S)];
      destruct (convert_file _ _ _ _ _ _ _ _ _) as [[e|ok] st1];
      cbn [fst snd spawned app] in *; rewrite S; try constructor; try constructor.
    all: exists ffmpeg, (PurePath.parse (input args)), o.
    all: split; [reflexivity|]; split; [|apply last_build_cmd].
    all: destruct out as [o'|]; simpl in R.
    all: try (injection R as <-; now apply (explicit_out_suffix _ _ E)).
    all: assert (Hn := with_suffix_inr _ _ _ R);
      rewrite (with_suffix_stem _ ".mp4" Hn) in R; injection R as <-;
      fold (derived_out (PurePath.parse (input args)));
      now rewrite suffix_derived_out.
  - assert (Hd : OS.is_dir w (PurePath.parse (input args)) = true)
      by (now apply is_dir_exists).
    rewrite main_batch by exact Hd. cbn [world].
    assert (Hn := discovered_names w _ (recursive args) Hd).
    destruct (discovered _ _ _) as [|f movs] eqn:Em; [constructor|].
    destruct (batch which encoder args (f :: movs) 0 (mkState w [])) as [res st'] eqn:B.
    destruct (batch_log which encoder args (f :: movs) Hn 0 _ res st' B) as (log & Hl & Hf).
    simpl in Hl. subst log.
    assert (G : Forall (fun e =>
                exists ffmpeg inp out,
                  fst e = build_cmd ffmpeg inp out (copy args) (crf args) (preset args)
                                    (extra_args args)
                  /\ PyStr.lower (PurePath.suffix out) = ".mp4"
                  /\ last (fst e) "" = PurePath.str out) (spawned st')).
    { eapply Forall_impl; [|exact Hf]. intros e (ffmpeg & g & Hg & Ee).
      exists ffmpeg, g, (derived_out g). split; [exact Ee|]. split.
      - rewrite Forall_forall in Hn. now rewrite (suffix_derived_out _ (Hn _ Hg)).
      - rewrite Ee. apply last_build_cmd. }
    now destruct res.
Qed.

(** ** Single-file runs *)

Lemma parts_snoc (p : Path) :
  parts p <> [] ->
  p = mkPath (root p) (removelast (parts p) ++ [PurePath.name p]).
Proof.
  intros H. destruct p as [rt ps]. cbn [root parts]. f_equal.
  unfold PurePath.name. cbn [parts]. now apply app_removelast_last.
Qed.


(** [mkdir(parents=True, exist_ok=True)] on a regular file raises
    [FileExistsError] and changes nothing. *)
Lemma mkdir_parents_file (w : World) (p : Path) :
  OS.is_file w p = true -> PathOps.mkdir_parents w p = (inl FileExistsError, w).
Proof.
  intros H. assert (Hp := is_file_parts _ _ H).
  assert (Hd : OS.is_dir w p = false).
  { unfold OS.is_file in H. unfold OS.is_dir. now destruct (OS.stat w p) as [e|[|es]]. }
  assert (M : OS.mkdir w p = inl FileExistsError).
  { unfold OS.is_file in H. destruct (OS.stat w p) as [e|n] eqn:S; [discriminate|].
    destruct n; [|discriminate].
    rewrite (parts_snoc p Hp) in S.
    apply stat_parts_snoc in S as (loc & es & L & K & Hf).
    unfold OS.mkdir. rewrite (parts_snoc p Hp) at 1. cbn [parts].
    rewrite rev_app_distr. cbn [rev app]. rewrite rev_involutive, L, K.
    destruct (String.eqb (PurePath.name p) ".."); [reflexivity|].
    now rewrite Hf. }
  unfold PathOps.mkdir_parents.
  assert (E : mkPath (root p) (rev (rev (parts p))) = p)
    by (rewrite rev_involutive; now destruct p).
  revert E. generalize (rev (parts p)) as rps. intros rps E.
  destruct rps as [|x r]; cbn [PathOps.mkdir_rev]; rewrite E, M, Hd; reflexivity.
Qed.





(** X8: an explicit output without a file name (["."], ["/"]) makes a
    single-file run end with an uncaught [ValueError], so with status 1,
    before [ffmpeg] is looked for: nothing is spawned and the filesystem is
    left as it was. *)
Theorem X8_nameless_output_raises (which : option string)
        (encoder : list string -> World -> Z * World) (args : Args) (w : World)
        (s : string) :
  OS.is_file w (PurePath.parse (input args)) = true ->
  output args = Some s ->
  PyStr.truthy s = true ->
  PyStr.truthy (PurePath.name (PurePath.parse s)) = false ->
  run which encoder args w = (inl ValueError, mkState w [])
  /\ exit_status (fst (run which encoder args w)) = 1%Z.
Proof.
  intros Fi Ho Hs Hn.
  assert (E : explicit_out (output args) = inl ValueError).
  { rewrite Ho. unfold explicit_out. rewrite Hs.
    assert (S : PurePath.suffix (PurePath.parse s) = "").
    { unfold PurePath.suffix.
      destruct (PurePath.name (PurePath.parse s)); [reflexivity | discriminate]. }
    rewrite S. simpl. unfold PurePath.with_suffix. now rewrite Hn. }
  unfold run. rewrite main_single by exact Fi. now rewrite E.
Qed.

Lemma X8_nameless_output_raises_witness :
  run (Some "/usr/bin/ffmpeg") (example_encoder [])
      (mkArgs "/clips/a.mov" (Some "/") false 20 "medium" false None) clips_world
  = (inl ValueError, mkState clips_world []).
Proof.
  exact (proj1 (X8_nameless_output_raises (Some "/usr/bin/ffmpeg") (example_encoder [])
                  (mkArgs "/clips/a.mov" (Some "/") false 20 "medium" false None)
                  clips_world "/" eq_refl eq_refl eq_refl eq_refl)).
Defined.

(** X9: when the directory of the explicit output is an existing regular
    file, the single-file run ends with an uncaught [FileExistsError], so with
    status 1: nothing is spawned and the filesystem is left as it was. *)
Theorem X9_output_under_a_file (which : option string)
        (encoder : list string -> World -> Z * World) (args : Args) (w : World)
        (ffmpeg : string) (o : Path) :
  OS.is_file w (PurePath.parse (input args)) = true ->
  explicit_out (output args) = inr (Some o) ->
  found_ffmpeg which = Some ffmpeg ->
  OS.is_file w (PurePath.parent o) = true ->
  run which encoder args w = (inl FileExistsError, mkState w [])
  /\ exit_status (fst (run which encoder args w)) = 1%Z.
Proof.
  intros Fi E F Hp. unfold run. rewrite main_single by exact Fi. rewrite E.
  rewrite (convert_file_no_dir which encoder _ (Some o) _ _ _ _ (mkState w []) ffmpeg o
             FileExistsError w F eq_refl (mkdir_parents_file _ _ Hp)).
  split; reflexivity.
Qed.

Lemma X9_output_under_a_file_witness :
  run (Some "/usr/bin/ffmpeg") (example_encoder [])
      (mkArgs "/clips/a.mov" (Some "/clips/notes.txt/a.mp4") false 20 "medium" false None)
      clips_world
  = (inl FileExistsError, mkState clips_world []).
Proof.
  exact (proj1 (X9_output_under_a_file (Some "/usr/bin/ffmpeg") (example_encoder [])
                  (mkArgs "/clips/a.mov" (Some "/clips/notes.txt/a.mp4") false 20 "medium"
                          false None)
                  clips_world "/usr/bin/ffmpeg" (PurePath.parse "/clips/notes.txt/a.mp4")
                  eq_refl eq_refl eq_refl eq_refl)).
Defined.

(** ** Options that have no effect *)

Section OptionFacts.

Variable which : option string.
Variable encoder : list string -> World -> Z * World.

(** With stream copy, the command does not depend on the quality and the
    preset, and neither does the conversion. *)
Lemma convert_file_copy (inp : Path) (out : option Path) (c c' : Z) (p p' : string)
      (extra : list string) (st : State) :
  convert_file which encoder inp out true c p extra st
  = convert_file which encoder inp out true c' p' extra st.
Proof.
  unfold convert_file, bind.
  destruct (which_ffmpeg which st) as [[e|ffmpeg] st1]; [reflexivity|].
  destruct (lift (resolve_out inp out) st1) as [[e|o] st2]; [reflexivity|].
  destruct (mkdir_parents (PurePath.parent o) st2) as [[e|[]] st3]; reflexivity.
Qed.

(** Two command lines on which every conversion agrees give the same batch
    loop. *)
Lemma batch_ext (a b : Args) :
  (forall f st,
      convert_file which encoder f None (copy a) (crf a) (preset a) (extra_args a) st
      = convert_file which encoder f None (copy b) (crf b) (preset b) (extra_args b) st) ->
  forall movs failures st,
    batch which encoder a movs failures st = batch which encoder b movs failures st.
Proof.
  intros H. induction movs as [|f movs IH]; intros failures st; [reflexivity|].
  cbn [batch]. unfold bind. rewrite H.
  destruct (convert_file _ _ _ _ _ _ _ _ st) as [[e|ok] st1]; [reflexivity | apply IH].
Qed.

(** Two command lines with the same input, the same [--recursive], the same
    resolved explicit output, and on which every conversion agrees, give the
    same run. *)
Lemma main_ext (a b : Args) (st : State) :
  input a = input b ->
  recursive a = recursive b ->
  explicit_out (output a) = explicit_out (output b) ->
  (forall inp out st',
      convert_file which encoder inp out (copy a) (crf a) (preset a) (extra_args a) st'
      = convert_file which encoder inp out (copy b) (crf b) (preset b) (extra_args b) st') ->
  main which encoder a st = main which encoder b st.
Proof.
  intros Hi Hr Ho Hc.
  destruct (OS.exists_ (world st) (PurePath.parse (input a))) eqn:Ex.
  2:{ rewrite (main_missing_input which encoder a st Ex).
      rewrite Hi in Ex. now rewrite (main_missing_input which encoder b st Ex). }
  destruct (OS.is_file (world st) (PurePath.parse (input a))) eqn:Fi.
  - rewrite (main_single which encoder a st Fi).
    assert (Fi' := Fi). rewrite Hi in Fi'.
    rewrite (main_single which encoder b st Fi').
    rewrite Ho, Hi. destruct (explicit_out (output b)) as [e|out]; [reflexivity|].
    now rewrite Hc.
  - assert (Hd : OS.is_dir (world st) (PurePath.parse (input a)) = true)
      by (now apply is_dir_exists).
    rewrite (main_batch which encoder a st Hd).
    assert (Hd' := Hd). rewrite Hi in Hd'.
    rewrite (main_batch which encoder b st Hd').
    rewrite Hi, Hr. destruct (discovered _ _ _) as [|f movs]; [reflexivity|].
    rewrite (batch_ext a b (fun f st' => Hc f None st')). reflexivity.
Qed.

End OptionFacts.

(** X10: with [--copy], the values of [--crf] and [--preset] have no effect
    on a run: the result, the filesystem and the processes spawned are the
    same for any of them. *)
Theorem X10_copy_ignores_quality (which : option string)
        (encoder : list string -> World -> Z * World) (args : Args) (c : Z) (p : string)
        (st : State) :
  copy args = true ->
  main which encoder (with_quality c p args) st = main which encoder args st.
Proof.
  intros H. apply main_ext; try reflexivity.
  intros inp out st'.
  change (copy (with_quality c p args)) with (copy args).
  change (extra_args (with_quality c p args)) with (extra_args args).
  rewrite H. apply convert_file_copy.
Qed.

Lemma X10_copy_ignores_quality_witness :
  main (Some "/usr/bin/ffmpeg") (example_encoder [])
       (with_quality 35 "ultrafast" (mkArgs "/clips" None true 20 "medium" false None))
       (mkState clips_world [])
  = main (Some "/usr/bin/ffmpeg") (example_encoder [])
         (mkArgs "/clips" None true 20 "medium" false None) (mkState clips_world []).
Proof.
  exact (X10_copy_ignores_quality (Some "/usr/bin/ffmpeg") (example_encoder [])
           (mkArgs "/clips" None true 20 "medium" false None) 35 "ultrafast"
           (mkState clips_world []) eq_refl).
Defined.

(** X11: when the input is a file, [--recursive] has no effect on a run. *)
Theorem X11_single_file_ignores_recursive (which : option string)
        (encoder : list string -> World -> Z * World) (args : Args) (r : bool)
        (st : State) :
  OS.is_file (world st) (PurePath.parse (input args)) = true ->
  main which encoder (with_recursive r args) st = main which encoder args st.
Proof.
  intros Fi.
  rewrite (main_single which encoder (with_recursive r args) st Fi).
  now rewrite (main_single which encoder args st Fi).
Qed.

Lemma X11_single_file_ignores_recursive_witness :
  main (Some "/usr/bin/ffmpeg") (example_encoder [])
       (with_recursive true (mkArgs "/clips/a.mov" None false 20 "medium" false None))
       (mkState clips_world [])
  = main (Some "/usr/bin/ffmpeg") (example_encoder [])
         (mkArgs "/clips/a.mov" None false 20 "medium" false None) (mkState clips_world []).
Proof.
  exact (X11_single_file_ignores_recursive (Some "/usr/bin/ffmpeg") (example_encoder [])
           (mkArgs "/clips/a.mov" None false 20 "medium" false None) true
           (mkState clips_world []) eq_refl).
Defined.

(** X12: an empty [--output] and an empty [--extra] are treated as absent:
    the run is the same as without the option. *)
Theorem X12_empty_options_are_absent (which : option string)
        (encoder : list string -> World -> Z * World) (args : Args) (st : State) :
  main which encoder (with_output (Some "") args) st
  = main which encoder (with_output None args) st
  /\ main which encoder (with_extra (Some []) args) st
     = main which encoder (with_extra None args) st.
Proof. split; apply main_ext; reflexivity. Qed.

(** ** Discovery *)

(** X13: recursive discovery extends non-recursive discovery: it returns
    the same paths first, in the same order, followed by the matches of the
    subdirectories. *)
Theorem X13_recursive_extends_flat (w : World) (p : Path) :
  exists deeper, discovered w p true = discovered w p false ++ deeper.
Proof.
  unfold discovered. destruct (OS.is_file w p); [now exists []|].
  unfold PathOps.rglob_mov, PathOps.glob_mov.
  destruct (OS.stat w p) as [e|[|es]]; try (now exists []).
  cbn [OS.rglob_node]. rewrite map_app, map_map. eexists. reflexivity.
Qed.



Lemma wf_lookup (loc : list string) :
  forall t n, OS.wf_node t = true -> lookup t loc = Some n -> OS.wf_node n = true.
Proof.
  induction loc as [|x loc IH]; intros t n Hwf K; simpl in K.
  - now injection K as <-.
  - destruct t as [|es]; [discriminate|].
    destruct (find_entry x es) as [c|] eqn:E; [|discriminate].
    apply (IH c n); [|exact K]. simpl in Hwf. apply andb_prop in Hwf as [_ Hall].
    rewrite forallb_forall in Hall. apply (Hall (x, c)). now apply find_entry_In.
Qed.




Lemma distinct_NoDup (l : list string) : OS.distinct l = true -> NoDup l.
Proof.
  induction l as [|x l IH]; simpl; intros H; constructor;
    apply andb_prop in H as [Hx Hl]; [|now apply IH].
  intros Hin. apply negb_true_iff in Hx.
  assert (existsb (String.eqb x) l = true); [|congruence].
  apply existsb_exists. exists x. split; [exact Hin | apply String.eqb_refl].
Qed.

Lemma NoDup_map_fst_filter (f : string * node -> bool) (es : list (string * node)) :
  NoDup (map fst es) -> NoDup (map fst (filter f es)).
Proof.
  induction es as [|e es IH]; simpl; intros H; [constructor|].
  inversion H as [|? ? Hx Hl]; subst. destruct (f e); simpl; [|now apply IH].
  constructor; [|now apply IH].
  intros Hin. apply Hx. apply in_map_iff in Hin as (e' & E & Hin).
  apply filter_In in Hin as [Hin _]. apply in_map_iff. now exists e'.
Qed.

Lemma NoDup_map_inj {A B : Type} (g : A -> B) (l : list A) :
  (forall x y, g x = g y -> x = y) -> NoDup l -> NoDup (map g l).
Proof.
  intros Hg. induction l as [|a l IH]; simpl; intros H; constructor;
    inversion H as [|? ? Ha Hl]; subst; [|now apply IH].
  intros Hin. apply in_map_iff in Hin as (y & E & Hin).
  now rewrite (Hg _ _ E) in Hin.
Qed.

Lemma NoDup_append {A : Type} (l l' : list A) :
  NoDup l -> NoDup l' -> (forall x, In x l -> ~ In x l') -> NoDup (l ++ l').
Proof.
  induction l as [|a l IH]; simpl; intros Hl Hl' Hd; [exact Hl'|].
  inversion Hl as [|? ? Ha Hl0]; subst. constructor.
  - intros Hin. apply in_app_or in Hin as [Hin|Hin]; [now apply Ha|].
    exact (Hd a (or_introl eq_refl) Hin).
  - apply IH; [assumption | assumption | intros x Hx; apply Hd; now right].
Qed.

Lemma NoDup_below (es : list (string * node)) :
  NoDup (map fst es) ->
  Forall (fun e => NoDup (OS.rglob_node (snd e))) es ->
  NoDup (flat_map (fun e => match e with
                            | (nm, c) =>
                                if OS.dot_name nm then []
                                else map (cons nm) (OS.rglob_node c)
                            end) es).
Proof.
  induction es as [|[nm c] es IH]; simpl; intros Hn Hf; [constructor|].
  inversion Hn as [|? ? Hx Hl]; subst. inversion Hf as [|? ? Hc Hr]; subst.
  apply NoDup_append.
  - destruct (OS.dot_name nm); [constructor|].
    apply NoDup_map_inj; [now intros x y [= ->] | exact Hc].
  - now apply IH.
  - intros rel Hin Hin'.
    destruct (OS.dot_name nm); [contradiction|].
    apply in_map_iff in Hin as (r1 & <- & _).
    apply in_flat_map in Hin' as ([nm' c'] & He & Hin').
    destruct (OS.dot_name nm'); [contradiction|].
    apply in_map_iff in Hin' as (r2 & E & _). injection E as -> _.
    apply Hx. apply in_map_iff. now exists (nm, c').
Qed.

(** The matches below a node never repeat. *)
Lemma NoDup_rglob_node (n : node) : OS.wf_node n = true -> NoDup (OS.rglob_node n).
Proof.
  induction n as [|es IH] using node_induction; intros Hwf; [constructor|].
  simpl in Hwf. apply andb_prop in Hwf as [Hdist Hall].
  rewrite forallb_forall in Hall.
  cbn [OS.rglob_node]. apply NoDup_append.
  - rewrite <- (map_map fst (fun nm => [nm])). apply NoDup_map_inj.
    + now intros x y [= ->].
    + unfold OS.scandir. do 2 apply NoDup_map_fst_filter. now apply distinct_NoDup.
  - apply NoDup_below; [now apply distinct_NoDup|].
    rewrite Forall_forall in *. intros [nm c] Hin. apply (IH _ Hin).
    apply (Hall _ Hin).
  - intros rel Hin Hin'.
    apply in_map_iff in Hin as (e & <- & _).
    apply in_flat_map in Hin' as ([nm c] & _ & Hin').
    destruct (OS.dot_name nm); [contradiction|].
    apply in_map_iff in Hin' as (rel' & E & Hrel).
    injection E as _ E. subst rel'.
    apply rglob_node_sound in Hrel as (dirs & nm' & c' & es' & E & _).
    now destruct dirs.
Qed.

(** X15: on a well-formed filesystem, discovery returns no path twice, so
    the batch loop converts no entry twice. *)
Theorem X15_discovered_distinct (w : World) (p : Path) (recursive : bool) :
  OS.wf w = true -> NoDup (discovered w p recursive).
Proof.
  intros Hwf. unfold discovered.
  destruct (OS.is_file w p); [constructor; [intros []|constructor]|].
  assert (Hn : forall n, OS.stat w p = inr n -> OS.wf_node n = true).
  { intros n S. unfold OS.stat in S.
    destruct (OS.locate w (root p) (parts p)) as [e|loc]; [discriminate|].
    destruct (lookup (tree w) loc) as [n'|] eqn:K; [|discriminate].
    injection S as ->. exact (wf_lookup loc (tree w) n Hwf K). }
  destruct recursive.
  - unfold PathOps.rglob_mov. destruct (OS.stat w p) as [e|n]; [constructor|].
    apply NoDup_map_inj; [|apply NoDup_rglob_node; now apply Hn].
    intros x y [= E]. now apply app_inv_head in E.
  - unfold PathOps.glob_mov. destruct (OS.stat w p) as [e|[|es]] eqn:S; try constructor.
    specialize (Hn _ eq_refl). simpl in Hn. apply andb_prop in Hn as [Hdist _].
    rewrite <- (map_map fst (fun nm => PurePath.child p nm)). apply NoDup_map_inj.
    + unfold PurePath.child. intros x y [= E]. apply app_inv_head in E. now injection E.
    + unfold OS.scandir. do 2 apply NoDup_map_fst_filter. now apply distinct_NoDup.
Qed.

Lemma X15_discovered_distinct_witness :
  NoDup (discovered clips_world (PurePath.parse "/clips") true).
Proof. exact (X15_discovered_distinct clips_world (PurePath.parse "/clips") true eq_refl). Defined.

(** ** What a run does to the filesystem *)

Section WorldFacts.

Variable which : option string.
Variable encoder : list string -> World -> Z * World.


End WorldFacts.



(** *** Nothing is removed *)

Lemma preserved_refl (w : World) : preserved w w.
Proof. split; auto. Qed.

Lemma preserved_trans (w1 w2 w3 : World) :
  preserved w1 w2 -> preserved w2 w3 -> preserved w1 w3.
Proof. intros [A B] [C D]. split; auto. Qed.

Lemma lookup_add_entry_file (nm : string) (new : node) (l : list string) :
  forall (t : node) (loc : list string),
    lookup t l = Some File -> lookup (OS.add_entry loc nm new t) l = Some File.
Proof.
  induction l as [|x l IH]; intros t loc H; simpl in *.
  - injection H as ->. now destruct loc.
  - destruct t as [|es0]; [discriminate|].
    destruct (find_entry x es0) as [c|] eqn:E; [|discriminate].
    destruct loc as [|y loc]; simpl.
    + now rewrite find_entry_app, E.
    + rewrite find_entry_update, E. simpl.
      destruct (String.eqb y x); auto.
Qed.

Lemma is_file_with_entry_mono (w : World) (loc : list string) (nm : string) (new : node)
      (p : Path) :
  OS.is_file w p = true -> OS.is_file (OS.with_entry w loc nm new) p = true.
Proof.
  unfold OS.is_file, OS.stat.
  destruct (OS.locate w (root p) (parts p)) as [e|l] eqn:L; [discriminate|].
  rewrite (locate_with_entry_mono w loc nm new _ _ _ L), tree_with_entry.
  destruct (lookup (tree w) l) as [[|es]|] eqn:K; try discriminate. intros _.
  now rewrite (lookup_add_entry_file nm new l (tree w) loc K).
Qed.

Lemma with_entry_preserved (w : World) (loc : list string) (nm : string) (new : node) :
  preserved w (OS.with_entry w loc nm new).
Proof.
  split; intros q H; [now apply is_dir_with_entry_mono | now apply is_file_with_entry_mono].
Qed.

Lemma mkdir_preserved (w w' : World) (p : Path) :
  OS.mkdir w p = inr w' -> preserved w w'.
Proof.
  unfold OS.mkdir.
  destruct (rev (parts p)) as [|nm rinit]; [discriminate|].
  destruct (OS.locate w (root p) (rev rinit)) as [e|loc]; [discriminate|].
  destruct (lookup (tree w) loc) as [[|es]|]; try discriminate.
  destruct (String.eqb nm ".."); [discriminate|].
  destruct (find_entry nm es); [discriminate|].
  intros [= <-]. apply with_entry_preserved.
Qed.

Lemma mkdir_exist_ok_preserved (w : World) (p : Path) :
  preserved w (snd (PathOps.mkdir_exist_ok w p)).
Proof.
  unfold PathOps.mkdir_exist_ok.
  destruct (OS.mkdir w p) as [e|w1] eqn:M; [|now apply mkdir_preserved with p].
  destruct e; try (destruct (OS.is_dir w p)); apply preserved_refl.
Qed.

Lemma mkdir_rev_preserved (rt : string) (rps : list string) :
  forall w, preserved w (snd (PathOps.mkdir_rev rt rps w)).
Proof.
  induction rps as [|x rps IH]; intros w; cbn [PathOps.mkdir_rev];
    destruct (OS.mkdir w _) as [e|w1] eqn:M; try (now apply mkdir_preserved in M).
  - destruct e; try (destruct (OS.is_dir w _)); apply preserved_refl.
  - destruct e; try (destruct (OS.is_dir w _)); try apply preserved_refl.
    specialize (IH w).
    destruct (PathOps.mkdir_rev rt rps w) as [[e1|[]] w1]; [exact IH|].
    eapply preserved_trans; [exact IH | apply mkdir_exist_ok_preserved].
Qed.

(** [mkdir(parents=True, exist_ok=True)] removes nothing, whether it
    succeeds or raises. *)
Lemma mkdir_parents_preserved (w : World) (p : Path) :
  preserved w (snd (PathOps.mkdir_parents w p)).
Proof. apply mkdir_rev_preserved. Qed.

Section PreservedFacts.

Variable which : option string.
Variable encoder : list string -> World -> Z * World.
Hypothesis encoder_preserves : forall cmd w, preserved w (snd (encoder cmd w)).

Lemma convert_file_preserved (inp : Path) (out : option Path) (copy : bool) (crf : Z)
      (preset : string) (extra : list string) (st : State) :
  preserved (world st)
            (world (snd (convert_file which encoder inp out copy crf preset extra st))).
Proof.
  destruct (found_ffmpeg which) as [ffmpeg|] eqn:F.
  2:{ rewrite convert_file_missing by exact F. apply preserved_refl. }
  destruct (resolve_out inp out) as [e|o] eqn:R.
  { rewrite (convert_file_no_out which encoder _ _ _ _ _ _ _ ffmpeg e F R).
    apply preserved_refl. }
  assert (P := mkdir_parents_preserved (world st) (PurePath.parent o)).
  destruct (PathOps.mkdir_parents (world st) (PurePath.parent o)) as [[e|[]] w1] eqn:D.
  { now rewrite (convert_file_no_dir which encoder _ _ _ _ _ _ st ffmpeg o e w1 F R D). }
  rewrite (convert_file_run which encoder _ _ _ _ _ _ st ffmpeg o w1 F R D).
  eapply preserved_trans; [exact P | apply encoder_preserves].
Qed.

Lemma batch_preserved (args : Args) (movs : list Path) :
  forall failures st,
    preserved (world st) (world (snd (batch which encoder args movs failures st))).
Proof.
  induction movs as [|f movs IH]; intros failures st; [apply preserved_refl|].
  cbn [batch]. unfold bind.
  assert (C := convert_file_preserved f None (copy args) (crf args) (preset args)
                                      (extra_args args) st).
  destruct (convert_file _ _ _ _ _ _ _ _ st) as [[e|ok] st1]; [exact C|].
  eapply preserved_trans; [exact C | apply IH].
Qed.

End PreservedFacts.

(** X17: a run removes nothing.  With an encoder that removes nothing,
    every path that was a directory or a regular file before the run still
    is one after it, however the run ends. *)
Theorem X17_run_removes_nothing (which : option string)
        (encoder : list string -> World -> Z * World) (args : Args) (w : World) :
  (forall cmd w0, preserved w0 (snd (encoder cmd w0))) ->
  preserved w (world (snd (run which encoder args w))).
Proof.
  intros P. unfold run.
  destruct (OS.exists_ w (PurePath.parse (input args))) eqn:Ex.
  2:{ rewrite main_missing_input by exact Ex. apply preserved_refl. }
  destruct (OS.is_file w (PurePath.parse (input args))) eqn:Fi.
  - rewrite main_single by exact Fi.
    destruct (explicit_out (output args)) as [e|out]; [apply preserved_refl|].
    assert (C := convert_file_preserved which encoder P (PurePath.parse (input args)) out
                   (copy args) (crf args) (preset args) (extra_args args) (mkState w [])).
    now destruct (convert_file _ _ _ _ _ _ _ _ _) as [[e|ok] st1].
  - assert (Hd : OS.is_dir w (PurePath.parse (input args)) = true)
      by (now apply is_dir_exists).
    rewrite main_batch by exact Hd. cbn [world].
    destruct (discovered _ _ _) as [|f movs]; [apply preserved_refl|].
    assert (B := batch_preserved which encoder P args (f :: movs) 0 (mkState w [])).
    now destruct (batch _ _ _ _ _ _) as [[e|n] st1].
Qed.

Lemma example_encoder_preserves (bad : list string) (cmd : list string) (w : World) :
  preserved w (snd (example_encoder bad cmd w)).
Proof.
  unfold example_encoder. destruct (existsb _ cmd); [apply preserved_refl|].
  cbn [snd]. unfold OS.write_file.
  destruct (rev (parts _)) as [|nm rinit]; [apply preserved_refl|].
  destruct (OS.locate w _ (rev rinit)) as [e|loc]; [apply preserved_refl|].
  destruct (lookup (tree w) loc) as [[|es]|]; try apply preserved_refl.
  destruct (String.eqb nm ".."); [apply preserved_refl|].
  destruct (find_entry nm es); [apply preserved_refl | apply with_entry_preserved].
Qed.

Lemma X17_run_removes_nothing_witness :
  preserved home_world
            (world (snd (run (Some "/usr/bin/ffmpeg") (example_encoder ["clip.mov"])
                             (mkArgs "clip.mov" (Some "out/new/clip.mp4") false 20
                                     "medium" false None)
                             home_world))).
Proof.
  exact (X17_run_removes_nothing (Some "/usr/bin/ffmpeg") (example_encoder ["clip.mov"])
           (mkArgs "clip.mov" (Some "out/new/clip.mp4") false 20 "medium" false None)
           home_world (example_encoder_preserves ["clip.mov"])).
Defined.

(** *** Discovery misses nothing *)

Lemma walk_plain_target (t : node) (dirs : list string) :
  forall loc l,
    Forall (fun d => OS.dot_name d = false) dirs ->
    walk t loc dirs = inr l -> l = loc ++ dirs.
Proof.
  induction dirs as [|d ds IH]; intros loc l Hd H; simpl in H.
  - injection H as <-. now rewrite app_nil_r.
  - inversion Hd as [|? ? Hd1 Hd2]; subst.
    destruct (lookup t loc) as [[|es]|]; try discriminate.
    rewrite (dot_name_dotdot _ Hd1) in H.
    rewrite (IH _ _ Hd2 H). now rewrite <- app_assoc.
Qed.

(** X18: discovery misses nothing.  An entry whose name ends in [".mov"],
    listed in a directory reached from the root directory through the
    subdirectories [dirs], is returned by recursive discovery; when it is
    listed in the root directory itself, by non-recursive discovery too. *)
Theorem X18_discovery_complete (w : World) (p : Path) (dirs : list string)
        (es : list (string * node)) (nm : string) (c : node) :
  OS.is_dir w p = true ->
  Forall (fun d => OS.dot_name d = false) dirs ->
  OS.stat w (mkPath (root p) (parts p ++ dirs)) = inr (Dir es) ->
  In (nm, c) es ->
  PyStr.endswith nm ".mov" = true ->
  In (mkPath (root p) (parts p ++ dirs ++ [nm])) (discovered w p true)
  /\ (dirs = [] -> In (PurePath.child p nm) (discovered w p false)).
Proof.
  intros Hd Hdots S Hin Hm.
  assert (Hf : OS.is_file w p = false) by (now apply is_dir_exists in Hd).
  unfold discovered. rewrite Hf. split.
  - unfold PathOps.rglob_mov.
    apply is_dir_stat in Hd as [es0 S0]. rewrite S0.
    apply in_map_iff. exists (dirs ++ [nm]). split; [reflexivity|].
    apply rglob_node_complete with es c; auto.
    unfold OS.stat in S, S0. cbn [root parts] in S. rewrite locate_app in S.
    destruct (OS.locate w (root p) (parts p)) as [e|loc]; [discriminate|].
    destruct (lookup (tree w) loc) as [n|] eqn:K; [|discriminate].
    injection S0 as ->.
    destruct (walk (tree w) loc dirs) as [e|l] eqn:W; [discriminate|].
    rewrite (walk_plain_target _ _ _ _ Hdots W), lookup_app, K in S.
    destruct (lookup (Dir es0) dirs); congruence.
  - intros ->. rewrite app_nil_r in S.
    apply glob_mov_spec. exists es, nm, c.
    repeat split; auto.
Qed.

Lemma X18_discovery_complete_witness :
  In (mkPath "/" ["media"; "clips.mov"]) (discovered bundle_world (PurePath.parse "/") true).
Proof.
  apply (X18_discovery_complete bundle_world (PurePath.parse "/") ["media"]
           [("clips.mov", Dir [("readme.txt", File)]); ("a.mov", File)]
           "clips.mov" (Dir [("readme.txt", File)])).
  - reflexivity.
  - repeat constructor.
  - reflexivity.
  - now left.
  - reflexivity.
Defined.
